(** * Storefront aggregation of the OverSounds shop: [show_storefront_products]

    A shallow embedding of
    [swagger_server/controllers/store_controller.py] together with the two
    model classes it instantiates ([models/product.py], [models/error.py]),
    followed by the properties of the aggregation pipeline.

    Layout:
    - [Py]      : the Python values that [Response.json()] can produce, and the
                  builtins the controller applies to them ([bool], [str],
                  [dict.get], iteration, subscripting);
    - [Models]  : the [Product] and [Error] classes;
    - [Store]   : the controller itself, over a small state-and-exception
                  monad that records the HTTP exchanges and the console;
    - the theorems. *)

From Stdlib Require Import ZArith List String Ascii Bool Lia.
From Stdlib Require Import DecimalString.
Import ListNotations.

Open Scope list_scope.
Open Scope string_scope.

(* ===================================================================== *)
(** ** Python values and builtins *)
(* ===================================================================== *)

Module Py.

(** What [json.loads] builds.  A float is kept as the text [repr] gives for
    it (the controller never computes with floats, it only forwards or prints
    them); a dict is the ordered list of its items, keys being JSON strings. *)
#[warnings="-register-all"]
Inductive pyval : Type :=
| PNone
| PBool (b : bool)
| PInt (z : Z)
| PFloat (lit : string)
| PStr (s : string)
| PList (l : list pyval)
| PDict (d : list (string * pyval)).

(** Exceptions the controller can meet.  [UpstreamError] stands for whatever
    [client.get(...)] or [.json()] raises (timeout, refused connection,
    invalid JSON), carrying its [str(e)]. *)
Inductive pyexn : Type :=
| UpstreamError (msg : string)
| AttributeError (msg : string)
| TypeError (msg : string)
| IndexError (msg : string)
| KeyError (key : pyval).

Definition res (A : Type) : Type := (pyexn + A)%type.
Definition Ok {A} (a : A) : res A := inr a.
Definition Raise {A} (e : pyexn) : res A := inl e.

Definition rbind {A B} (m : res A) (k : A -> res B) : res B :=
  match m with
  | inl e => inl e
  | inr a => k a
  end.

(** [type(v).__name__] *)
Definition type_name (v : pyval) : string :=
  match v with
  | PNone => "NoneType"
  | PBool _ => "bool"
  | PInt _ => "int"
  | PFloat _ => "float"
  | PStr _ => "str"
  | PList _ => "list"
  | PDict _ => "dict"
  end.

(** [bool(v)]: the truth value used by [if v] and by comprehension filters. *)
Definition truthy (v : pyval) : bool :=
  match v with
  | PNone => false
  | PBool b => b
  | PInt z => negb (Z.eqb z 0)
  | PFloat lit => negb (String.eqb lit "0.0" || String.eqb lit "-0.0")
  | PStr s => negb (String.eqb s "")
  | PList l => match l with [] => false | _ => true end
  | PDict d => match d with [] => false | _ => true end
  end.

(** *** [repr] and [str] *)

Definition dquote : ascii := "034"%char.
Definition squote : ascii := "039"%char.
Definition backslash : ascii := "092"%char.

Fixpoint contains_char (c : ascii) (s : string) : bool :=
  match s with
  | EmptyString => false
  | String x r => Ascii.eqb x c || contains_char c r
  end.

Definition hex_digit (n : N) : ascii :=
  nth (N.to_nat n)
      ["0";"1";"2";"3";"4";"5";"6";"7";"8";"9";"a";"b";"c";"d";"e";"f"]%char
      "0"%char.

(** One character of a string literal as [repr] writes it inside quotes [q].
    Exact for ASCII; a byte above 127 is copied, as [repr] does for the
    printable characters outside ASCII. *)
Definition escape_char (q c : ascii) : string :=
  let n := N_of_ascii c in
  if Ascii.eqb c q || Ascii.eqb c backslash then String backslash (String c "")
  else if N.eqb n 9 then String backslash "t"
  else if N.eqb n 10 then String backslash "n"
  else if N.eqb n 13 then String backslash "r"
  else if N.ltb n 32 || N.eqb n 127
       then String backslash
              (String "x" (String (hex_digit (N.div n 16))
                                  (String (hex_digit (N.modulo n 16)) "")))
  else String c "".

Fixpoint escape_all (q : ascii) (s : string) : string :=
  match s with
  | EmptyString => ""
  | String c r => escape_char q c ++ escape_all q r
  end.

(** [repr] of a [str]: single quotes, unless the text has a single quote and
    no double quote. *)
Definition repr_str (s : string) : string :=
  let q := if contains_char squote s && negb (contains_char dquote s)
           then dquote else squote in
  String q (escape_all q s ++ String q "").

Definition repr_int (z : Z) : string := NilZero.string_of_int (Z.to_int z).

Fixpoint py_repr (v : pyval) : string :=
  match v with
  | PNone => "None"
  | PBool true => "True"
  | PBool false => "False"
  | PInt z => repr_int z
  | PFloat lit => lit
  | PStr s => repr_str s
  | PList l => "[" ++ String.concat ", " (map py_repr l) ++ "]"
  | PDict d =>
      "{" ++ String.concat ", "
               (map (fun kv => repr_str (fst kv) ++ ": " ++ py_repr (snd kv)) d)
          ++ "}"
  end.

(** [str(v)]; also what an f-string placeholder [{v}] prints. *)
Definition py_str (v : pyval) : string :=
  match v with
  | PStr s => s
  | _ => py_repr v
  end.

(** [str(e)] for an exception. *)
Definition exn_str (e : pyexn) : string :=
  match e with
  | UpstreamError m | AttributeError m | TypeError m | IndexError m => m
  | KeyError k => py_repr k
  end.

(** *** Dictionaries *)

Fixpoint lookup (k : string) (d : list (string * pyval)) : option pyval :=
  match d with
  | [] => None
  | (k', v) :: r => if String.eqb k k' then Some v else lookup k r
  end.

Definition no_attribute (v : pyval) (attr : string) : pyexn :=
  AttributeError
    (String squote (type_name v) ++ String squote " object has no attribute "
       ++ String squote attr ++ String squote "").

(** [v.get(k, default)]: only a dict has the method. *)
Definition get_default (v : pyval) (k : string) (default : pyval) : res pyval :=
  match v with
  | PDict d => Ok (match lookup k d with Some x => x | None => default end)
  | _ => Raise (no_attribute v "get")
  end.

(** [v.get(k)] *)
Definition get (v : pyval) (k : string) : res pyval := get_default v k PNone.

(** *** Iteration and subscripting *)

Fixpoint chars (s : string) : list pyval :=
  match s with
  | EmptyString => []
  | String c r => PStr (String c "") :: chars r
  end.

(** The items a [for] loop or a comprehension visits.  A [str] is visited
    byte by byte, which is character by character for ASCII text. *)
Definition iter (v : pyval) : res (list pyval) :=
  match v with
  | PList l => Ok l
  | PStr s => Ok (chars s)
  | PDict d => Ok (map (fun kv => PStr (fst kv)) d)
  | _ => Raise (TypeError (String squote (type_name v)
                             ++ String squote " object is not iterable"))
  end.

(** [v[0]].  A dict built from JSON has string keys only, so the integer key
    is never found.  A [str] is held as its bytes, one per character for
    ASCII text: on a [str] that begins with a character outside ASCII the
    first byte stands in for the first character. *)
Definition item0 (v : pyval) : res pyval :=
  match v with
  | PList (x :: _) => Ok x
  | PList [] => Raise (IndexError "list index out of range")
  | PStr (String c _) => Ok (PStr (String c ""))
  | PStr EmptyString => Raise (IndexError "string index out of range")
  | PDict _ => Raise (KeyError (PInt 0))
  | _ => Raise (TypeError (String squote (type_name v)
                             ++ String squote " object is not subscriptable"))
  end.

(** [",".join(map(str, ids))] *)
Definition join_str (sep : string) (ids : list pyval) : string :=
  String.concat sep (map py_str ids).

End Py.

Import Py.

Notation "x <~ m ;; k" := (rbind m (fun x => k))
  (at level 61, m at next level, right associativity).

(* ===================================================================== *)
(** ** The model classes *)
(* ===================================================================== *)

Module Models.

(** [models/product.py], [Product.__init__]: the thirteen private attributes,
    each assigned from the argument of the same name with no check (the
    validating setters are not used by the constructor).  An argument that is
    left out is [None]. *)
Record Product : Type := mkProduct {
  song_id : pyval;
  album_id : pyval;
  merch_id : pyval;
  name : pyval;
  price : pyval;
  description : pyval;
  artist : pyval;
  colaborators : pyval;
  release_date : pyval;
  duration : pyval;
  genre : pyval;
  cover : pyval;
  song_list : pyval
}.

(** [models/error.py], [Error.__init__]: likewise two plain assignments. *)
Record Error : Type := mkError {
  code : pyval;
  message : pyval
}.

End Models.

Import Models.

(* ===================================================================== *)
(** ** The controller *)
(* ===================================================================== *)

Module Store.

(** What one call can observe and change outside itself: the HTTP exchanges
    with the upstream service, in the order they were made and each with its
    outcome, and the lines printed on the console. *)
Record world : Type := mkWorld {
  exchanges : list (string * res pyval);
  stdout : list string
}.

Definition fresh : world := mkWorld [] [].

(** Computations that may raise and that act on the [world]. *)
Definition M (A : Type) : Type := world -> res A * world.

Definition ret {A} (a : A) : M A := fun w => (Ok a, w).

Definition bind {A B} (m : M A) (k : A -> M B) : M B :=
  fun w => match m w with
           | (inl e, w') => (inl e, w')
           | (inr a, w') => k a w'
           end.

Definition lift {A} (r : res A) : M A := fun w => (r, w).

(** [try: body  except Exception as e: handler(e)] *)
Definition try_except {A} (body : M A) (handler : pyexn -> M A) : M A :=
  fun w => match body w with
           | (inl e, w') => handler e w'
           | (inr a, w') => (inr a, w')
           end.

(** [print(line)] *)
Definition print (line : string) : M unit :=
  fun w => (Ok tt, mkWorld (exchanges w) (stdout w ++ [line])%list).

Notation "x <- m ;; k" := (bind m (fun x => k))
  (at level 61, m at next level, right associativity).
Notation "m ;;; k" := (bind m (fun _ => k))
  (at level 61, right associativity).

(** [[item.get(key) for item in response if item.get(key)]]
    (lines 173-175): the loop over the items already obtained from the
    response. *)
Fixpoint ids_of_items (key : string) (items : list pyval) : res (list pyval) :=
  match items with
  | [] => Ok []
  | item :: rest =>
      cond <~ get item key ;;
      if truthy cond
      then (v <~ get item key ;;
            tl <~ ids_of_items key rest ;;
            Ok (v :: tl))
      else ids_of_items key rest
  end.

Definition extract_ids (key : string) (response : pyval) : res (list pyval) :=
  items <~ iter response ;;
  ids_of_items key items.

(** [for x in items: productos.append(make(x))], the local list [productos]
    being threaded through. *)
Fixpoint for_append (make : pyval -> res Product) (items : list pyval)
         (productos : list Product) : res (list Product) :=
  match items with
  | [] => Ok productos
  | x :: rest =>
      p <~ make x ;;
      for_append make rest (productos ++ [p])%list
  end.

(** [str(r.get("genres", ["0"])[0]) if r.get("genres") else "0"] *)
Definition genre_of (r : pyval) : res pyval :=
  cond <~ get r "genres" ;;
  if truthy cond
  then (g <~ get_default r "genres" (PList [PStr "0"]) ;;
        g0 <~ item0 g ;;
        Ok (PStr (py_str g0)))
  else Ok (PStr "0").

(** [[str(i) for i in r.get(key, [])]] *)
Definition str_list_of (r : pyval) (key : string) : res pyval :=
  l <~ get_default r key (PList []) ;;
  items <~ iter l ;;
  Ok (PList (map (fun i => PStr (py_str i)) items)).

(** [f"{r.get('releaseDate')}T00:00:00Z"] *)
Definition release_date_of (r : pyval) : res pyval :=
  d <~ get r "releaseDate" ;;
  Ok (PStr (py_str d ++ "T00:00:00Z")).

(** [str(r.get("artistId"))] *)
Definition artist_of (r : pyval) : res pyval :=
  a <~ get r "artistId" ;;
  Ok (PStr (py_str a)).

(** The [Product(...)] call of the song loop (lines 206-220); the keyword
    arguments are evaluated in the order written. *)
Definition map_song (c : pyval) : res Product :=
  song_id_ <~ get c "songId" ;;
  name_ <~ get c "title" ;;
  artist_ <~ artist_of c ;;
  release_date_ <~ release_date_of c ;;
  album_id_ <~ get c "albumId" ;;
  description_ <~ get c "description" ;;
  let song_list_ := PList [] in
  let merch_id_ := PInt 0 in
  duration_ <~ get c "duration" ;;
  cover_ <~ get c "cover" ;;
  price_ <~ get c "price" ;;
  genre_ <~ genre_of c ;;
  colaborators_ <~ str_list_of c "collaborators" ;;
  Ok {| song_id := song_id_; name := name_; artist := artist_;
        release_date := release_date_; album_id := album_id_;
        description := description_; song_list := song_list_;
        merch_id := merch_id_; duration := duration_; cover := cover_;
        price := price_; genre := genre_; colaborators := colaborators_ |}.

(** The [Product(...)] call of the album loop (lines 224-238). *)
Definition map_album (a : pyval) : res Product :=
  let song_id_ := PInt 0 in
  name_ <~ get a "title" ;;
  artist_ <~ artist_of a ;;
  release_date_ <~ release_date_of a ;;
  album_id_ <~ get a "albumId" ;;
  description_ <~ get a "description" ;;
  song_list_ <~ str_list_of a "songs" ;;
  let merch_id_ := PInt 0 in
  let duration_ := PInt 0 in
  cover_ <~ get a "cover" ;;
  price_ <~ get a "price" ;;
  genre_ <~ genre_of a ;;
  colaborators_ <~ str_list_of a "collaborators" ;;
  Ok {| song_id := song_id_; name := name_; artist := artist_;
        release_date := release_date_; album_id := album_id_;
        description := description_; song_list := song_list_;
        merch_id := merch_id_; duration := duration_; cover := cover_;
        price := price_; genre := genre_; colaborators := colaborators_ |}.

(** The [Product(...)] call of the merchandising loop (lines 242-256). *)
Definition map_merch (m : pyval) : res Product :=
  let song_id_ := PInt 0 in
  name_ <~ get m "title" ;;
  artist_ <~ artist_of m ;;
  release_date_ <~ release_date_of m ;;
  let album_id_ := PInt 0 in
  description_ <~ get m "description" ;;
  let song_list_ := PList [] in
  merch_id_ <~ get m "merchId" ;;
  let duration_ := PInt 0 in
  cover_ <~ get m "cover" ;;
  price_ <~ get m "price" ;;
  let genre_ := PStr "Merch" in
  colaborators_ <~ str_list_of m "collaborators" ;;
  Ok {| song_id := song_id_; name := name_; artist := artist_;
        release_date := release_date_; album_id := album_id_;
        description := description_; song_list := song_list_;
        merch_id := merch_id_; duration := duration_; cover := cover_;
        price := price_; genre := genre_; colaborators := colaborators_ |}.

(** The three mapping loops (lines 204-256), starting from
    [productos = []]. *)
Definition build_productos (canciones albumes merch : pyval)
  : res (list Product) :=
  let productos := [] in
  cs <~ iter canciones ;;
  productos <~ for_append map_song cs productos ;;
  als <~ iter albumes ;;
  productos <~ for_append map_album als productos ;;
  ms <~ iter merch ;;
  productos <~ for_append map_merch ms productos ;;
  Ok productos.

(** What the endpoint hands back: the serialized list, or an [Error]. *)
Inductive response (D : Type) : Type :=
| Products (l : list D)
| Failure (e : Error).
Arguments Products {D} l.
Arguments Failure {D} e.

Section Controller.

(** [controllers/config.py] is not part of the analysed sources: the base
    address of the upstream service is a parameter. *)
Variable TYA_SERVICE_URL : string.

(** [Model.to_dict] comes from [models/base_model_.py], which is not part of
    the analysed sources either: the serialization of one [Product] is a
    parameter, assumed to return normally. *)
Variable D : Type.
Variable to_dict : Product -> D.

(** The upstream service: given the addresses requested so far and the
    address requested now, the outcome of [client.get(url).json()]. *)
Variable upstream : list string -> string -> res pyval.

(** [client.get(url).json()] *)
Definition client_get_json (url : string) : M pyval :=
  fun w =>
    let r := upstream (map fst (exchanges w)) url in
    (r, mkWorld (exchanges w ++ [(url, r)])%list (stdout w)).

(** Step 1 (lines 167-175): the three filter requests, then the three
    comprehensions. *)
Definition fetch_ids : M (list pyval * list pyval * list pyval) :=
  song_ids_response <- client_get_json (TYA_SERVICE_URL ++ "/song/filter") ;;
  album_ids_response <- client_get_json (TYA_SERVICE_URL ++ "/album/filter") ;;
  merch_ids_response <- client_get_json (TYA_SERVICE_URL ++ "/merch/filter") ;;
  song_ids <- lift (extract_ids "songId" song_ids_response) ;;
  album_ids <- lift (extract_ids "albumId" album_ids_response) ;;
  merch_ids <- lift (extract_ids "merchId" merch_ids_response) ;;
  ret (song_ids, album_ids, merch_ids).

(** Step 2 (lines 183-198). *)
Definition fetch_details (song_ids album_ids merch_ids : list pyval)
  : M (pyval * pyval * pyval) :=
  let canciones := PList [] in
  let albumes := PList [] in
  let merch := PList [] in
  canciones <-
    (if truthy (PList song_ids)
     then let ids_str := join_str "," song_ids in
          client_get_json (TYA_SERVICE_URL ++ "/song/list?ids=" ++ ids_str)
     else ret canciones) ;;
  albumes <-
    (if truthy (PList album_ids)
     then let ids_str := join_str "," album_ids in
          client_get_json (TYA_SERVICE_URL ++ "/album/list?ids=" ++ ids_str)
     else ret albumes) ;;
  merch <-
    (if truthy (PList merch_ids)
     then let ids_str := join_str "," merch_ids in
          client_get_json (TYA_SERVICE_URL ++ "/merch/list?ids=" ++ ids_str)
     else ret merch) ;;
  ret (canciones, albumes, merch).

(** The body of the inner [try] (lines 160-198).  Entering and leaving
    [with httpx.Client(timeout=5.0) as client] makes no request. *)
Definition fetch_body : M (pyval * pyval * pyval) :=
  ids <- fetch_ids ;;
  let '(song_ids, album_ids, merch_ids) := ids in
  fetch_details song_ids album_ids merch_ids.

(** The inner [try ... except] (lines 159-202). *)
Definition fetch : M (pyval * pyval * pyval) :=
  try_except fetch_body
    (fun e =>
       print ("Error al conectar con Temas y Autores: " ++ exn_str e) ;;;
       ret (PList [], PList [], PList [])).

(** [show_storefront_products] (lines 154-266).  [conexion] stays [None], so
    the [finally] clause does nothing. *)
Definition show_storefront_products : M (response D) :=
  try_except
    (fetched <- fetch ;;
     let '(canciones, albumes, merch) := fetched in
     productos <- lift (build_productos canciones albumes merch) ;;
     ret (Products (map to_dict productos)))
    (fun e =>
       print ("Error general al obtener los productos: " ++ exn_str e) ;;;
       ret (Failure (mkError (PStr "500") (PStr (exn_str e))))).

End Controller.

End Store.

Import Store.

(* ===================================================================== *)
(** ** The property setters of the models *)
(* ===================================================================== *)

(** What a setter raises. *)
Inductive model_error : Type :=
| ValueError (msg : string).

Definition is_none (v : pyval) : bool :=
  match v with PNone => true | _ => false end.

(** The message shared by the validating setters. *)
Definition must_not_be_none (attr : string) : model_error :=
  ValueError ("Invalid value for `" ++ attr ++ "`, must not be `None`").

(** [models/product.py], the thirteen setters: an assignment [p.attr = v]
    either raises and leaves [p] as it was, or gives the updated object. *)
Module ProductSetters.

(** [@song_id.setter] (lines 249-259) *)
Definition set_song_id (p : Product) (v : pyval) : model_error + Product :=
  inr
      (mkProduct v (album_id p) (merch_id p) (name p) (price p)
         (description p) (artist p) (colaborators p) (release_date p)
         (duration p) (genre p) (cover p) (song_list p)).

(** [@album_id.setter] (lines 272-282) *)
Definition set_album_id (p : Product) (v : pyval) : model_error + Product :=
  inr
      (mkProduct (song_id p) v (merch_id p) (name p) (price p)
         (description p) (artist p) (colaborators p) (release_date p)
         (duration p) (genre p) (cover p) (song_list p)).

(** [@merch_id.setter] (lines 295-305) *)
Definition set_merch_id (p : Product) (v : pyval) : model_error + Product :=
  inr
      (mkProduct (song_id p) (album_id p) v (name p) (price p)
         (description p) (artist p) (colaborators p) (release_date p)
         (duration p) (genre p) (cover p) (song_list p)).

(** [@name.setter] (lines 318-330) *)
Definition set_name (p : Product) (v : pyval) : model_error + Product :=
  if is_none v then inl (must_not_be_none "name")
  else inr
      (mkProduct (song_id p) (album_id p) (merch_id p) v (price p)
         (description p) (artist p) (colaborators p) (release_date p)
         (duration p) (genre p) (cover p) (song_list p)).

(** [@price.setter] (lines 343-355) *)
Definition set_price (p : Product) (v : pyval) : model_error + Product :=
  if is_none v then inl (must_not_be_none "price")
  else inr
      (mkProduct (song_id p) (album_id p) (merch_id p) (name p) v
         (description p) (artist p) (colaborators p) (release_date p)
         (duration p) (genre p) (cover p) (song_list p)).

(** [@description.setter] (lines 368-380) *)
Definition set_description (p : Product) (v : pyval) : model_error + Product :=
  if is_none v then inl (must_not_be_none "description")
  else inr
      (mkProduct (song_id p) (album_id p) (merch_id p) (name p) (price
         p) v (artist p) (colaborators p) (release_date p) (duration p)
         (genre p) (cover p) (song_list p)).

(** [@artist.setter] (lines 393-405) *)
Definition set_artist (p : Product) (v : pyval) : model_error + Product :=
  if is_none v then inl (must_not_be_none "artist")
  else inr
      (mkProduct (song_id p) (album_id p) (merch_id p) (name p) (price
         p) (description p) v (colaborators p) (release_date p)
         (duration p) (genre p) (cover p) (song_list p)).

(** [@colaborators.setter] (lines 418-430) *)
Definition set_colaborators (p : Product) (v : pyval) : model_error + Product :=
  if is_none v then inl (must_not_be_none "colaborators")
  else inr
      (mkProduct (song_id p) (album_id p) (merch_id p) (name p) (price
         p) (description p) (artist p) v (release_date p) (duration p)
         (genre p) (cover p) (song_list p)).

(** [@release_date.setter] (lines 443-453) *)
Definition set_release_date (p : Product) (v : pyval) : model_error + Product :=
  inr
      (mkProduct (song_id p) (album_id p) (merch_id p) (name p) (price
         p) (description p) (artist p) (colaborators p) v (duration p)
         (genre p) (cover p) (song_list p)).

(** [@duration.setter] (lines 466-476) *)
Definition set_duration (p : Product) (v : pyval) : model_error + Product :=
  inr
      (mkProduct (song_id p) (album_id p) (merch_id p) (name p) (price
         p) (description p) (artist p) (colaborators p) (release_date p)
         v (genre p) (cover p) (song_list p)).

(** [@genre.setter] (lines 489-499) *)
Definition set_genre (p : Product) (v : pyval) : model_error + Product :=
  inr
      (mkProduct (song_id p) (album_id p) (merch_id p) (name p) (price
         p) (description p) (artist p) (colaborators p) (release_date p)
         (duration p) v (cover p) (song_list p)).

(** [@cover.setter] (lines 512-524) *)
Definition set_cover (p : Product) (v : pyval) : model_error + Product :=
  if is_none v then inl (must_not_be_none "cover")
  else inr
      (mkProduct (song_id p) (album_id p) (merch_id p) (name p) (price
         p) (description p) (artist p) (colaborators p) (release_date p)
         (duration p) (genre p) v (song_list p)).

(** [@song_list.setter] (lines 537-547) *)
Definition set_song_list (p : Product) (v : pyval) : model_error + Product :=
  inr
      (mkProduct (song_id p) (album_id p) (merch_id p) (name p) (price
         p) (description p) (artist p) (colaborators p) (release_date p)
         (duration p) (genre p) (cover p) v).

(** The object accepts its own values back through the six validating
    setters. *)
Definition accepted (p : Product) : Prop :=
  set_name p (name p) = inr p /\ set_price p (price p) = inr p /\
  set_description p (description p) = inr p /\
  set_artist p (artist p) = inr p /\
  set_colaborators p (colaborators p) = inr p /\
  set_cover p (cover p) = inr p.

End ProductSetters.

(** [models/error.py], the two setters (lines 138-149 and 161-172). *)
Module ErrorSetters.

Definition set_code (x : Error) (v : pyval) : model_error + Error :=
  if is_none v then inl (must_not_be_none "code")
  else inr (mkError v (message x)).

Definition set_message (x : Error) (v : pyval) : model_error + Error :=
  if is_none v then inl (must_not_be_none "message")
  else inr (mkError (code x) v).

End ErrorSetters.

(** [models/cart_body.py].  The attributes are the declared [int]s, [None]
    being allowed where the class allows it. *)
Module Cart.

Record CartBody : Type := mkCartBody {
  song_id : option Z;
  album_id : option Z;
  merch_id : option Z;
  unidades : Z
}.

(** [unidades or 1] *)
Definition or_one (u : option Z) : Z :=
  match u with
  | None => 1
  | Some z => if Z.eqb z 0 then 1 else z
  end.

(** [CartBody.__init__] (lines 71-105); a caller that leaves [unidades] out
    passes the default [1]. *)
Definition init (song_id album_id merch_id unidades : option Z) : CartBody :=
  mkCartBody song_id album_id merch_id (or_one unidades).

(** [@unidades.setter] (lines 159-179) *)
Definition set_unidades (c : CartBody) (u : option Z)
  : model_error + CartBody :=
  if (match u with Some z => Z.ltb z 1 | None => false end)
  then inl (ValueError "La cantidad debe ser al menos 1")
  else inr (mkCartBody (song_id c) (album_id c) (merch_id c) (or_one u)).

End Cart.

(* ===================================================================== *)
(** ** Vocabulary of the statements *)
(* ===================================================================== *)

(** The value [r.get(k)] has when [r] is the dict with items [d]. *)
Definition field (d : list (string * pyval)) (k : string) : pyval :=
  match lookup k d with
  | Some x => x
  | None => PNone
  end.

Definition is_dict (v : pyval) : bool :=
  match v with PDict _ => true | _ => false end.

Definition is_list (v : pyval) : bool :=
  match v with PList _ => true | _ => false end.

Definition list_if_present (d : list (string * pyval)) (k : string) : bool :=
  match lookup k d with
  | None => true
  | Some v => is_list v
  end.

(** A well-formed upstream record: a JSON object whose list-valued entries
    ([genres], [collaborators], [songs]) are JSON arrays when they are
    there.  Nothing is asked of the other entries, which may all be absent. *)
Definition well_formed (r : pyval) : bool :=
  match r with
  | PDict d =>
      list_if_present d "genres" && list_if_present d "collaborators"
        && list_if_present d "songs"
  | _ => false
  end.

(** The fields a product of each kind does not take from its record. *)
Definition song_shape (p : Product) : Prop :=
  merch_id p = PInt 0 /\ song_list p = PList [].

Definition album_shape (p : Product) : Prop :=
  song_id p = PInt 0 /\ merch_id p = PInt 0 /\ duration p = PInt 0.

Definition merch_shape (p : Product) : Prop :=
  song_id p = PInt 0 /\ album_id p = PInt 0 /\ duration p = PInt 0 /\
  song_list p = PList [].

(** [ps] are the products of the items of [v], one for one and in order. *)
Definition mapped_in_order (make : pyval -> res Product) (v : pyval)
           (ps : list Product) : Prop :=
  exists items, iter v = Ok items /\
                Forall2 (fun x p => make x = Ok p) items ps.

(** How many of the values are truthy. *)
Fixpoint count_truthy (l : list pyval) : nat :=
  match l with
  | [] => 0
  | v :: r => (if truthy v then 1 else 0) + count_truthy r
  end.

(** The identifier entry of each item of a filter response, [None] where it
    is missing. *)
Definition raw_ids (key : string) (items : list pyval) : list pyval :=
  map (fun it => match it with PDict d => field d key | _ => PNone end) items.

(** The addresses requested so far, oldest first. *)
Definition requested (w : world) : list string := map fst (exchanges w).

Definition succeeded (x : string * res pyval) : Prop :=
  exists v, snd x = Ok v.

(** A computation only adds to the log of exchanges, and when it returns
    normally every exchange it added had succeeded: a failed exchange is
    never swallowed. *)
Definition loud {A} (m : M A) : Prop :=
  forall w r w',
    m w = (r, w') ->
    exists new, exchanges w' = (exchanges w ++ new)%list /\
                (forall a, r = Ok a -> Forall succeeded new).

(** A computation requests the addresses [urls] in that order, stopping
    early only when it raises. *)
Definition asks {A} (m : M A) (urls : list string) : Prop :=
  forall w r w',
    m w = (r, w') ->
    exists done rest,
      urls = (done ++ rest)%list /\
      requested w' = (requested w ++ done)%list /\
      (forall a, r = Ok a -> rest = []).

(** The addresses of step 1, and those of step 2 for given identifiers. *)
Definition filter_urls (base : string) : list string :=
  [base ++ "/song/filter"; base ++ "/album/filter"; base ++ "/merch/filter"].

Definition detail_urls (base : string) (song_ids album_ids merch_ids : list pyval)
  : list string :=
  let song := base ++ "/song/list?ids=" ++ join_str "," song_ids in
  let album := base ++ "/album/list?ids=" ++ join_str "," album_ids in
  let merch := base ++ "/merch/list?ids=" ++ join_str "," merch_ids in
  ((if truthy (PList song_ids) then [song] else []) ++
   (if truthy (PList album_ids) then [album] else []) ++
   (if truthy (PList merch_ids) then [merch] else []))%list.

(** A computation prints nothing. *)
Definition quiet {A} (m : M A) : Prop :=
  forall w r w', m w = (r, w') -> stdout w' = stdout w.

(** A computation only adds to the log of exchanges; the exchanges it adds
    succeeded, except that when it raises [e] the last one may be the
    exchange that failed with [e]. *)
Definition stops_at_failure {A} (m : M A) : Prop :=
  forall w r w',
    m w = (r, w') ->
    exists new,
      exchanges w' = (exchanges w ++ new)%list /\
      match r with
      | inr _ => Forall succeeded new
      | inl e =>
          Forall succeeded new \/
          exists pre url, new = (pre ++ [(url, Raise e)])%list /\
                          Forall succeeded pre
      end.

(** Whatever happens next, a computation begins by requesting [url]. *)
Definition opens_with {A} (m : M A) (url : string) : Prop :=
  forall w, exists r tail,
    exchanges (snd (m w)) = (exchanges w ++ (url, r) :: tail)%list.

(** The value is a [str]; the value is a list of [str]. *)
Definition is_str (v : pyval) : bool :=
  match v with PStr _ => true | _ => false end.

Definition is_str_list (v : pyval) : bool :=
  match v with PList l => forallb is_str l | _ => false end.

(** Two products agree on the fields every kind takes from its record by
    the same expression. *)
Definition same_common (p q : Product) : Prop :=
  name p = name q /\ artist p = artist q /\
  release_date p = release_date q /\ description p = description q /\
  cover p = cover q /\ price p = price q /\
  colaborators p = colaborators q.

(** Some item of [v] makes [make] raise. *)
Definition has_bad_record (make : pyval -> res Product) (v : pyval) : Prop :=
  exists items x e, iter v = Ok items /\ In x items /\ make x = Raise e.

(** The exchanges of step 2 when the kinds, asked in turn, were answered
    [canciones], [albumes] and [merch]; a kind without identifiers is not
    asked. *)
Definition detail_exchanges (base : string)
           (song_ids album_ids merch_ids : list pyval)
           (canciones albumes merch : pyval) : list (string * res pyval) :=
  let song := base ++ "/song/list?ids=" ++ join_str "," song_ids in
  let album := base ++ "/album/list?ids=" ++ join_str "," album_ids in
  let merch_url := base ++ "/merch/list?ids=" ++ join_str "," merch_ids in
  ((if truthy (PList song_ids) then [(song, Ok canciones)] else []) ++
   (if truthy (PList album_ids) then [(album, Ok albumes)] else []) ++
   (if truthy (PList merch_ids) then [(merch_url, Ok merch)] else []))%list.

(** In the call started in [w] the identifier phase went through, and the
    upstream service answered every detail request: [canciones], [albumes]
    and [merch] are its answers, as the log of exchanges has them, and the
    empty list for a kind that has no identifiers. *)
Definition answered (base : string) (up : list string -> string -> res pyval)
           (w : world) (canciones albumes merch : pyval) : Prop :=
  exists s a m w1,
    fetch_ids base up w = (Ok (s, a, m), w1) /\
    exchanges (snd (fetch_body base up w))
    = (exchanges w1 ++ detail_exchanges base s a m canciones albumes merch)%list /\
    (s = [] -> canciones = PList []) /\
    (a = [] -> albumes = PList []) /\
    (m = [] -> merch = PList []).

(** The record sets the mapping loops work on: the answers of the upstream
    service, or three empty lists when the fetch step raised. *)
Definition record_sets (base : string)
           (up : list string -> string -> res pyval)
           (w : world) (canciones albumes merch : pyval) : Prop :=
  answered base up w canciones albumes merch \/
  ((exists e, fst (fetch_body base up w) = Raise e) /\
   canciones = PList [] /\ albumes = PList [] /\ merch = PList []).

Inductive kind : Type := Song | Album | Merch.

(** Follows the spec (section 3), not the code: the kinds a product belongs
    to are read off its identity fields, "songId set: song, albumId set with
    no songId: album, merchId set: merch", a field being set when it is
    neither null nor zero. *)
Definition kinds_of (p : Product) : list kind :=
  ((if truthy (song_id p) then [Song] else []) ++
   (if truthy (album_id p) && negb (truthy (song_id p)) then [Album] else []) ++
   (if truthy (merch_id p) then [Merch] else []))%list.

(** ** Sample records and upstream services *)

(** The upstream service that refuses every connection. *)
Definition refusing (_ : list string) (_ : string) : res pyval :=
  Raise (UpstreamError "connection refused").

(** An album with a genre. *)
Definition album_with_genre : pyval :=
  PDict [("albumId", PInt 10); ("title", PStr "Abbey Road");
         ("genres", PList [PInt 7])].

(** An upstream service with two songs and nothing else, as in the test
    suite of the controller. *)
Definition test_song (id : Z) (title price : string) (seconds : Z) : pyval :=
  PDict [("songId", PInt id); ("title", PStr title); ("artistId", PInt 1);
         ("albumId", PInt 1); ("price", PFloat price);
         ("description", PStr "Test"); ("releaseDate", PStr "2024-01-01");
         ("duration", PInt seconds); ("cover", PStr "base64...");
         ("genres", PList [PInt 1]); ("collaborators", PList [])].

Definition catalogue (_ : list string) (url : string) : res pyval :=
  if String.eqb url "http://tya/song/filter"
  then Ok (PList [PDict [("songId", PInt 1)]; PDict [("songId", PInt 2)]])
  else if String.eqb url "http://tya/song/list?ids=1,2"
  then Ok (PList [test_song 1 "Test Song 1" "1.99" 180;
                  test_song 2 "Test Song 2" "2.99" 200])
  else if String.eqb url "http://tya/album/filter" then Ok (PList [])
  else if String.eqb url "http://tya/merch/filter" then Ok (PList [])
  else Raise (UpstreamError "404 Not Found").

(** An upstream service whose song details are not objects. *)
Definition garbled (_ : list string) (url : string) : res pyval :=
  if String.eqb url "http://tya/song/filter"
  then Ok (PList [PDict [("songId", PInt 1)]])
  else if String.eqb url "http://tya/song/list?ids=1"
  then Ok (PList [PInt 5])
  else Ok (PList []).

(** An upstream service whose song filter holds a stray number. *)
Definition sloppy (_ : list string) (url : string) : res pyval :=
  if String.eqb url "http://tya/song/filter"
  then Ok (PList [PDict [("songId", PInt 1)]; PInt 7])
  else Ok (PList [PDict [("albumId", PInt 4); ("merchId", PInt 9)]]).


(** An upstream service with songs 1 and 2, album 4 and merchandising 9,
    which answers the three detail requests with the given bodies. *)
Definition shop (songs albums merch : pyval) (_ : list string) (url : string)
  : res pyval :=
  if String.eqb url "http://tya/song/filter"
  then Ok (PList [PDict [("songId", PInt 1)]; PDict [("songId", PInt 2)]])
  else if String.eqb url "http://tya/album/filter"
  then Ok (PList [PDict [("albumId", PInt 4)]])
  else if String.eqb url "http://tya/merch/filter"
  then Ok (PList [PDict [("merchId", PInt 9)]])
  else if String.eqb url "http://tya/song/list?ids=1,2" then Ok songs
  else if String.eqb url "http://tya/album/list?ids=4" then Ok albums
  else if String.eqb url "http://tya/merch/list?ids=9" then Ok merch
  else Raise (UpstreamError "404 Not Found").

Definition two_songs : pyval :=
  PList [test_song 1 "Test Song 1" "1.99" 180;
         test_song 2 "Test Song 2" "2.99" 200].

Definition one_album : pyval :=
  PList [PDict [("albumId", PInt 4); ("title", PStr "Test Album");
                ("artistId", PInt 1); ("price", PFloat "9.99");
                ("songs", PList [PInt 1; PInt 2]);
                ("genres", PList [PInt 3])]].

Definition one_merch : pyval :=
  PList [PDict [("merchId", PInt 9); ("title", PStr "Band T-Shirt");
                ("artistId", PInt 1); ("price", PFloat "24.99")]].

Definition full_shop : list string -> string -> res pyval :=
  shop two_songs one_album one_merch.

(** The identifiers of a product, in the order song, album, merch. *)
Definition identifiers (p : Product) : pyval * pyval * pyval :=
  (song_id p, album_id p, merch_id p).

(** ** Facts about the mapper *)

Lemma get_dict d k : get (PDict d) k = Ok (field d k).
Proof. reflexivity. Qed.

Lemma get_ok_dict r k v : get r k = Ok v -> exists d, r = PDict d.
Proof.
  destruct r; try discriminate.
  intros _. eauto.
Qed.

Ltac need_dict r :=
  destruct r; try (intro; discriminate).

(** Each mapper starts with a [.get]: it returns normally on dicts only. *)
Lemma map_song_dict c p : map_song c = Ok p -> exists d, c = PDict d.
Proof. need_dict c. eauto. Qed.

Lemma map_album_dict a p : map_album a = Ok p -> exists d, a = PDict d.
Proof. need_dict a. eauto. Qed.

Lemma map_merch_dict m p : map_merch m = Ok p -> exists d, m = PDict d.
Proof. need_dict m. eauto. Qed.

(** The mappers, read backwards. *)
Lemma map_song_inv d p :
  map_song (PDict d) = Ok p ->
  exists g cs,
    genre_of (PDict d) = Ok g /\
    str_list_of (PDict d) "collaborators" = Ok cs /\
    p = {| song_id := field d "songId"; name := field d "title";
           artist := PStr (py_str (field d "artistId"));
           release_date := PStr (py_str (field d "releaseDate") ++ "T00:00:00Z");
           album_id := field d "albumId";
           description := field d "description";
           song_list := PList []; merch_id := PInt 0;
           duration := field d "duration"; cover := field d "cover";
           price := field d "price"; genre := g; colaborators := cs |}.
Proof.
  unfold map_song, artist_of, release_date_of.
  rewrite !get_dict. cbn [rbind Ok].
  destruct (genre_of (PDict d)) as [e|g]; [discriminate|].
  destruct (str_list_of (PDict d) "collaborators") as [e|cs]; [discriminate|].
  cbn [rbind Ok]. intros H. injection H as <-. eauto.
Qed.

Lemma map_album_inv d p :
  map_album (PDict d) = Ok p ->
  exists sl g cs,
    str_list_of (PDict d) "songs" = Ok sl /\
    genre_of (PDict d) = Ok g /\
    str_list_of (PDict d) "collaborators" = Ok cs /\
    p = {| song_id := PInt 0; name := field d "title";
           artist := PStr (py_str (field d "artistId"));
           release_date := PStr (py_str (field d "releaseDate") ++ "T00:00:00Z");
           album_id := field d "albumId";
           description := field d "description";
           song_list := sl; merch_id := PInt 0;
           duration := PInt 0; cover := field d "cover";
           price := field d "price"; genre := g; colaborators := cs |}.
Proof.
  unfold map_album, artist_of, release_date_of.
  rewrite !get_dict. cbn [rbind Ok].
  destruct (str_list_of (PDict d) "songs") as [e|sl]; [discriminate|].
  destruct (genre_of (PDict d)) as [e|g]; [discriminate|].
  destruct (str_list_of (PDict d) "collaborators") as [e|cs]; [discriminate|].
  cbn [rbind Ok]. intros H. injection H as <-. eauto 7.
Qed.

Lemma map_merch_inv d p :
  map_merch (PDict d) = Ok p ->
  exists cs,
    str_list_of (PDict d) "collaborators" = Ok cs /\
    p = {| song_id := PInt 0; name := field d "title";
           artist := PStr (py_str (field d "artistId"));
           release_date := PStr (py_str (field d "releaseDate") ++ "T00:00:00Z");
           album_id := PInt 0;
           description := field d "description";
           song_list := PList []; merch_id := field d "merchId";
           duration := PInt 0; cover := field d "cover";
           price := field d "price"; genre := PStr "Merch";
           colaborators := cs |}.
Proof.
  unfold map_merch, artist_of, release_date_of.
  rewrite !get_dict. cbn [rbind Ok].
  destruct (str_list_of (PDict d) "collaborators") as [e|cs]; [discriminate|].
  cbn [rbind Ok]. intros H. injection H as <-. eauto.
Qed.

(** The genre rule, by cases on the [genres] entry. *)
Lemma genre_of_falsy d :
  truthy (field d "genres") = false -> genre_of (PDict d) = Ok (PStr "0").
Proof.
  intros H. unfold genre_of. rewrite get_dict. cbn [rbind Ok].
  rewrite H. reflexivity.
Qed.

Lemma genre_of_absent d :
  lookup "genres" d = None -> genre_of (PDict d) = Ok (PStr "0").
Proof.
  intros H. apply genre_of_falsy. unfold field. rewrite H. reflexivity.
Qed.

Lemma genre_of_truthy d v :
  lookup "genres" d = Some v -> truthy v = true ->
  genre_of (PDict d) = (g0 <~ item0 v ;; Ok (PStr (py_str g0))).
Proof.
  intros Hl Ht. unfold genre_of, get, get_default, field.
  rewrite Hl. cbn [rbind Ok]. rewrite Ht. reflexivity.
Qed.

Lemma genre_of_list d g rest :
  lookup "genres" d = Some (PList (g :: rest)) ->
  genre_of (PDict d) = Ok (PStr (py_str g)).
Proof.
  intros H. rewrite (genre_of_truthy d _ H); reflexivity.
Qed.

Lemma str_list_of_absent d k :
  lookup k d = None -> str_list_of (PDict d) k = Ok (PList []).
Proof.
  intros H. unfold str_list_of, get_default. rewrite H. reflexivity.
Qed.

Lemma str_list_of_list d k l :
  lookup k d = Some (PList l) ->
  str_list_of (PDict d) k = Ok (PList (map (fun i => PStr (py_str i)) l)).
Proof.
  intros H. unfold str_list_of, get_default. rewrite H. reflexivity.
Qed.

Lemma str_list_of_total d k :
  list_if_present d k = true -> exists l, str_list_of (PDict d) k = Ok l.
Proof.
  unfold list_if_present. intros H.
  destruct (lookup k d) as [v|] eqn:E.
  - destruct v; try discriminate. erewrite str_list_of_list; eauto.
  - rewrite str_list_of_absent; eauto.
Qed.

Lemma genre_of_total d :
  list_if_present d "genres" = true -> exists g, genre_of (PDict d) = Ok g.
Proof.
  unfold list_if_present. intros H.
  destruct (lookup "genres" d) as [v|] eqn:E.
  - destruct v as [| | | | |l|]; try discriminate.
    destruct l as [|g rest].
    + rewrite genre_of_falsy; eauto. unfold field. rewrite E. reflexivity.
    + erewrite genre_of_list; eauto.
  - rewrite genre_of_absent; eauto.
Qed.

(** The subscript [[0]] is evaluated on truthy values only, so it never runs
    off the end of a list or of a string. *)
Lemma genre_of_no_index_error r msg : genre_of r <> Raise (IndexError msg).
Proof.
  unfold genre_of. destruct r; try discriminate.
  rewrite get_dict. cbn [rbind Ok].
  destruct (truthy (field d "genres")) eqn:T; [|discriminate].
  unfold get_default, field in *.
  destruct (lookup "genres" d) as [v|]; [|discriminate].
  cbn [rbind Ok].
  destruct v as [| | | |s|l|]; try discriminate.
  - destruct s; [discriminate T|discriminate].
  - destruct l; [discriminate T|discriminate].
Qed.

Lemma map_song_total d :
  list_if_present d "genres" = true ->
  list_if_present d "collaborators" = true ->
  exists p, map_song (PDict d) = Ok p.
Proof.
  intros Hg Hc.
  destruct (genre_of_total d Hg) as [g Eg].
  destruct (str_list_of_total d _ Hc) as [cs Ec].
  unfold map_song, artist_of, release_date_of.
  rewrite !get_dict, Eg, Ec. cbn [rbind Ok]. eauto.
Qed.

Lemma map_album_total d :
  list_if_present d "genres" = true ->
  list_if_present d "collaborators" = true ->
  list_if_present d "songs" = true ->
  exists p, map_album (PDict d) = Ok p.
Proof.
  intros Hg Hc Hs.
  destruct (genre_of_total d Hg) as [g Eg].
  destruct (str_list_of_total d _ Hc) as [cs Ec].
  destruct (str_list_of_total d _ Hs) as [sl Es].
  unfold map_album, artist_of, release_date_of.
  rewrite !get_dict, Eg, Ec, Es. cbn [rbind Ok]. eauto.
Qed.

Lemma map_merch_total d :
  list_if_present d "collaborators" = true ->
  exists p, map_merch (PDict d) = Ok p.
Proof.
  intros Hc.
  destruct (str_list_of_total d _ Hc) as [cs Ec].
  unfold map_merch, artist_of, release_date_of.
  rewrite !get_dict, Ec. cbn [rbind Ok]. eauto.
Qed.

Lemma song_has_shape c p : map_song c = Ok p -> song_shape p.
Proof.
  intros H. destruct (map_song_dict _ _ H) as [d ->].
  destruct (map_song_inv _ _ H) as (g & cs & _ & _ & ->).
  split; reflexivity.
Qed.

Lemma album_has_shape a p : map_album a = Ok p -> album_shape p.
Proof.
  intros H. destruct (map_album_dict _ _ H) as [d ->].
  destruct (map_album_inv _ _ H) as (sl & g & cs & _ & _ & _ & ->).
  repeat split; reflexivity.
Qed.

Lemma merch_has_shape m p : map_merch m = Ok p -> merch_shape p.
Proof.
  intros H. destruct (map_merch_dict _ _ H) as [d ->].
  destruct (map_merch_inv _ _ H) as (cs & _ & ->).
  repeat split; reflexivity.
Qed.

(** ** Facts about the loops *)

Lemma for_append_spec make items : forall acc out,
  for_append make items acc = Ok out <->
  exists ps, Forall2 (fun x p => make x = Ok p) items ps /\
             out = (acc ++ ps)%list.
Proof.
  induction items as [|x rest IH]; intros acc out; cbn [for_append].
  - split.
    + intros H. injection H as <-. exists []. split; [constructor|].
      now rewrite app_nil_r.
    + intros (ps & HF & ->). inversion HF. now rewrite app_nil_r.
  - destruct (make x) as [e|p] eqn:E; cbn [rbind].
    + split; [discriminate|].
      intros (ps & HF & _). inversion HF; subst. unfold Ok in *. congruence.
    + rewrite IH. split.
      * intros (ps & HF & ->). exists (p :: ps). split.
        -- constructor; assumption.
        -- now rewrite <- app_assoc.
      * intros (ps & HF & ->). inversion HF as [|? q ? qs Hq HF']; subst.
        assert (q = p) as -> by (unfold Ok in *; congruence).
        exists qs. split; [assumption|]. now rewrite <- app_assoc.
Qed.

Lemma build_productos_spec canciones albumes merch ps :
  build_productos canciones albumes merch = Ok ps <->
  exists s a m,
    mapped_in_order map_song canciones s /\
    mapped_in_order map_album albumes a /\
    mapped_in_order map_merch merch m /\
    ps = (s ++ a ++ m)%list.
Proof.
  unfold build_productos, mapped_in_order. split.
  - destruct (iter canciones) as [e|cs]; [discriminate|]. cbn [rbind].
    destruct (for_append map_song cs []) as [e|p1] eqn:E1; [discriminate|].
    cbn [rbind].
    destruct (iter albumes) as [e|als]; [discriminate|]. cbn [rbind].
    destruct (for_append map_album als p1) as [e|p2] eqn:E2; [discriminate|].
    cbn [rbind].
    destruct (iter merch) as [e|ms]; [discriminate|]. cbn [rbind].
    destruct (for_append map_merch ms p2) as [e|p3] eqn:E3; [discriminate|].
    cbn [rbind]. intros H. injection H as <-.
    apply for_append_spec in E1 as (s & F1 & ->).
    apply for_append_spec in E2 as (a & F2 & ->).
    apply for_append_spec in E3 as (m & F3 & ->).
    exists s, a, m. cbn [app]. rewrite <- app_assoc. eauto 10.
  - intros (s & a & m & (cs & -> & F1) & (als & -> & F2) & (ms & -> & F3) & ->).
    cbn [rbind Ok].
    assert (E1 : for_append map_song cs [] = Ok s)
      by (apply for_append_spec; eauto).
    assert (E2 : for_append map_album als s = Ok (s ++ a)%list)
      by (apply for_append_spec; eauto).
    assert (E3 : for_append map_merch ms (s ++ a)%list = Ok ((s ++ a) ++ m)%list)
      by (apply for_append_spec; eauto).
    rewrite E1. cbn [rbind Ok]. rewrite E2. cbn [rbind Ok].
    rewrite E3. cbn [rbind Ok].
    now rewrite <- app_assoc.
Qed.

Lemma mapped_forall make v ps (P : Product -> Prop) :
  (forall x p, make x = Ok p -> P p) ->
  mapped_in_order make v ps -> Forall P ps.
Proof.
  intros HP (items & _ & HF).
  induction HF; constructor; eauto.
Qed.

(** ** Facts about the extraction of identifiers *)

Lemma ids_of_items_dicts key items :
  Forall (fun it => is_dict it = true) items ->
  ids_of_items key items = Ok (filter truthy (raw_ids key items)).
Proof.
  unfold raw_ids.
  induction 1 as [|it rest Hit _ IH]; [reflexivity|].
  destruct it; try discriminate Hit.
  cbn [ids_of_items map filter]. rewrite get_dict. cbn [rbind Ok].
  destruct (truthy (field d key)); [|exact IH].
  rewrite IH. reflexivity.
Qed.

Lemma ids_of_items_truthy key items : forall ids,
  ids_of_items key items = Ok ids -> Forall (fun i => truthy i = true) ids.
Proof.
  induction items as [|it rest IH]; intros ids; cbn [ids_of_items].
  - intros H. injection H as <-. constructor.
  - destruct (get it key) as [e|c] eqn:G; [discriminate|]. cbn [rbind].
    destruct (truthy c) eqn:T; [|apply IH].
    cbn [rbind].
    destruct (ids_of_items key rest) as [e|tl]; [discriminate|].
    cbn [rbind]. intros H. injection H as <-.
    constructor; [assumption|]. apply IH. reflexivity.
Qed.

(** ** Facts about strings *)

Lemma append_inv_head (a x y : string) : a ++ x = a ++ y -> x = y.
Proof.
  induction a as [|c a IH]; cbn; [trivial|].
  intros H. injection H as H. auto.
Qed.

(** ** Facts about the fetch step *)

Lemma loud_ret A (a : A) : loud (ret a).
Proof.
  intros w r w' H. injection H as <- <-. exists [].
  split; [now rewrite app_nil_r | constructor].
Qed.

Lemma loud_lift A (r : res A) : loud (lift r).
Proof.
  intros w r' w' H. injection H as <- <-. exists [].
  split; [now rewrite app_nil_r | constructor].
Qed.

Lemma loud_bind A B (m : M A) (k : A -> M B) :
  loud m -> (forall a, loud (k a)) -> loud (bind m k).
Proof.
  intros Hm Hk w r w'. unfold bind.
  destruct (m w) as [[e|a] w1] eqn:E.
  - intros H. injection H as <- <-.
    destruct (Hm _ _ _ E) as (new & -> & _).
    exists new. split; [reflexivity | discriminate].
  - intros H.
    destruct (Hm _ _ _ E) as (n1 & E1 & F1).
    destruct (Hk a _ _ _ H) as (n2 & E2 & F2).
    exists (n1 ++ n2)%list. split.
    + now rewrite E2, E1, app_assoc.
    + intros b ->. apply Forall_app. split; eauto.
Qed.

Lemma asks_ret A (a : A) : asks (ret a) [].
Proof.
  intros w r w' H. injection H as <- <-. exists [], [].
  rewrite !app_nil_r. auto.
Qed.

Lemma asks_lift A (r : res A) : asks (lift r) [].
Proof.
  intros w r' w' H. injection H as <- <-. exists [], [].
  rewrite !app_nil_r. auto.
Qed.

Lemma asks_bind A B (m : M A) (k : A -> M B) us vs :
  asks m us -> (forall a, asks (k a) vs) -> asks (bind m k) (us ++ vs)%list.
Proof.
  intros Hm Hk w r w'. unfold bind.
  destruct (m w) as [[e|a] w1] eqn:E.
  - intros H. injection H as <- <-.
    destruct (Hm _ _ _ E) as (d1 & r1 & -> & Q1 & _).
    exists d1, (r1 ++ vs)%list.
    split; [now rewrite app_assoc|]. split; [assumption | discriminate].
  - intros H.
    destruct (Hm _ _ _ E) as (d1 & r1 & -> & Q1 & N1).
    rewrite (N1 a eq_refl), app_nil_r.
    destruct (Hk a _ _ _ H) as (d2 & r2 & -> & Q2 & N2).
    exists (d1 ++ d2)%list, r2.
    split; [now rewrite app_assoc|].
    split; [now rewrite Q2, Q1, app_assoc | assumption].
Qed.

Create HintDb loud.
#[local] Hint Resolve loud_ret loud_lift loud_bind : loud.

Section Run.

Variable TYA_SERVICE_URL : string.
Variable D : Type.
Variable to_dict : Product -> D.
Variable upstream : list string -> string -> res pyval.

Lemma loud_client_get_json url : loud (client_get_json upstream url).
Proof.
  intros w r w' H. injection H as <- <-. eexists. split; [reflexivity|].
  intros a E. repeat constructor. exists a. exact E.
Qed.

#[local] Hint Resolve loud_client_get_json : loud.

Lemma loud_fetch_ids : loud (fetch_ids TYA_SERVICE_URL upstream).
Proof. unfold fetch_ids. auto 10 with loud. Qed.

Lemma loud_fetch_details s a m :
  loud (fetch_details TYA_SERVICE_URL upstream s a m).
Proof.
  unfold fetch_details.
  repeat (apply loud_bind; [destruct (truthy _); auto with loud | intros ?]).
  auto with loud.
Qed.

Lemma loud_fetch_body : loud (fetch_body TYA_SERVICE_URL upstream).
Proof.
  unfold fetch_body. apply loud_bind; [apply loud_fetch_ids|].
  intros [[s a] m]. apply loud_fetch_details.
Qed.

(** The inner [try ... except], by cases on its body. *)
Lemma fetch_spec w :
  fetch TYA_SERVICE_URL upstream w =
  match fetch_body TYA_SERVICE_URL upstream w with
  | (inr t, w1) => (Ok t, w1)
  | (inl e, w1) =>
      (Ok (PList [], PList [], PList []),
       mkWorld (exchanges w1)
               (stdout w1 ++
                [("Error al conectar con Temas y Autores: " ++ exn_str e)%string])%list)
  end.
Proof.
  unfold fetch, try_except.
  destruct (fetch_body TYA_SERVICE_URL upstream w) as [[e|t] w1]; reflexivity.
Qed.

Lemma fetch_returns w :
  exists t w1, fetch TYA_SERVICE_URL upstream w = (Ok t, w1) /\
               exchanges w1 =
               exchanges (snd (fetch_body TYA_SERVICE_URL upstream w)).
Proof.
  rewrite fetch_spec.
  destruct (fetch_body TYA_SERVICE_URL upstream w) as [[e|t] w1]; eauto.
Qed.

(** The whole function, by cases on the mapping loops. *)
Lemma show_spec w t w1 :
  fetch TYA_SERVICE_URL upstream w = (Ok t, w1) ->
  show_storefront_products TYA_SERVICE_URL D to_dict upstream w =
  let '(canciones, albumes, merch) := t in
  match build_productos canciones albumes merch with
  | inr productos => (Ok (Products (map to_dict productos)), w1)
  | inl e =>
      (Ok (Failure (mkError (PStr "500") (PStr (exn_str e)))),
       mkWorld (exchanges w1)
               (stdout w1 ++
                [("Error general al obtener los productos: " ++ exn_str e)%string])%list)
  end.
Proof.
  intros E. unfold show_storefront_products, try_except, bind at 1.
  rewrite E. destruct t as [[c a] m].
  unfold bind, lift, Ok. cbv beta iota.
  destruct (build_productos c a m) as [e|ps]; reflexivity.
Qed.

Lemma show_exchanges w :
  exchanges (snd (show_storefront_products TYA_SERVICE_URL D to_dict upstream w))
  = exchanges (snd (fetch_body TYA_SERVICE_URL upstream w)).
Proof.
  destruct (fetch_returns w) as (t & w1 & E & <-).
  rewrite (show_spec _ _ _ E). destruct t as [[c a] m].
  destruct (build_productos c a m); reflexivity.
Qed.

(** Which addresses are requested, and in which order. *)
Lemma asks_client_get_json url : asks (client_get_json upstream url) [url].
Proof.
  intros w r w' H. injection H as <- <-. exists [url], [].
  unfold requested. cbn [exchanges]. rewrite map_app.
  repeat split; reflexivity.
Qed.

Lemma fetch_ids_requests :
  asks (fetch_ids TYA_SERVICE_URL upstream) (filter_urls TYA_SERVICE_URL).
Proof.
  unfold fetch_ids, filter_urls.
  repeat (eapply (asks_bind _ _ _ _ [_]);
          [apply asks_client_get_json | intros ?]).
  repeat (eapply (asks_bind _ _ _ _ []); [apply asks_lift | intros ?]).
  apply asks_ret.
Qed.

Lemma fetch_details_requests s a m :
  asks (fetch_details TYA_SERVICE_URL upstream s a m)
       (detail_urls TYA_SERVICE_URL s a m).
Proof.
  unfold fetch_details, detail_urls. cbv zeta.
  eapply asks_bind;
    [destruct (truthy (PList s));
     [apply asks_client_get_json | apply asks_ret] | intros ?].
  eapply asks_bind;
    [destruct (truthy (PList a));
     [apply asks_client_get_json | apply asks_ret] | intros ?].
  rewrite <- (app_nil_r (if truthy (PList m) then _ else _)).
  eapply asks_bind;
    [destruct (truthy (PList m));
     [apply asks_client_get_json | apply asks_ret] | intros ?].
  apply asks_ret.
Qed.

(** A kind without identifiers keeps the empty list it started with. *)
Lemma fetch_details_results s a m w c al me w' :
  fetch_details TYA_SERVICE_URL upstream s a m w = (Ok (c, al, me), w') ->
  (s = [] -> c = PList []) /\ (a = [] -> al = PList []) /\
  (m = [] -> me = PList []).
Proof.
  unfold fetch_details, bind, client_get_json, ret.
  destruct s, a, m; cbn [truthy exchanges stdout];
    repeat (match goal with
            | |- context [upstream ?h ?u] =>
                destruct (upstream h u); [discriminate|];
                cbn [exchanges stdout]
            end);
    intros H; injection H as <- <- <- _;
    repeat split; intros; (reflexivity || discriminate).
Qed.

Lemma fetch_body_after_ids w s a m w1 :
  fetch_ids TYA_SERVICE_URL upstream w = (Ok (s, a, m), w1) ->
  fetch_body TYA_SERVICE_URL upstream w =
  fetch_details TYA_SERVICE_URL upstream s a m w1.
Proof.
  intros E. unfold fetch_body, bind. rewrite E. reflexivity.
Qed.

End Run.

Lemma filter_length_count l : List.length (filter truthy l) = count_truthy l.
Proof.
  induction l as [|v r IH]; [reflexivity|].
  cbn [filter count_truthy]. destruct (truthy v); cbn; now rewrite IH.
Qed.

(** ** The requests of one call *)

Lemma truthy_list_nonempty (l : list pyval) :
  truthy (PList l) = true <-> l <> [].
Proof.
  destruct l; cbn; split; (congruence || discriminate || trivial).
Qed.

Lemma in_filter_urls base x :
  In x (filter_urls base) ->
  x = base ++ "/song/filter" \/ x = base ++ "/album/filter" \/
  x = base ++ "/merch/filter".
Proof. cbn. intuition auto. Qed.

Lemma in_detail_urls base s a m x :
  In x (detail_urls base s a m) <->
  (s <> [] /\ x = base ++ "/song/list?ids=" ++ join_str "," s) \/
  (a <> [] /\ x = base ++ "/album/list?ids=" ++ join_str "," a) \/
  (m <> [] /\ x = base ++ "/merch/list?ids=" ++ join_str "," m).
Proof.
  unfold detail_urls. cbv zeta. rewrite !in_app_iff.
  rewrite <- !truthy_list_nonempty.
  destruct (truthy (PList s)), (truthy (PList a)), (truthy (PList m));
    cbn [In]; intuition (auto; discriminate).
Qed.

(** The log of the fetch step once the identifiers are known. *)
Lemma fetch_log base up w s a m w1 :
  fetch_ids base up w = (Ok (s, a, m), w1) ->
  exists done rest,
    detail_urls base s a m = (done ++ rest)%list /\
    requested (snd (fetch base up w))
    = (requested w ++ filter_urls base ++ done)%list /\
    (forall t, fst (fetch_body base up w) = Ok t -> rest = []) /\
    (forall c al me,
        fst (fetch base up w) = Ok (c, al, me) ->
        (s = [] -> c = PList []) /\ (a = [] -> al = PList []) /\
        (m = [] -> me = PList [])).
Proof.
  intros E. pose proof (fetch_body_after_ids _ _ _ _ _ _ _ E) as B.
  destruct (fetch_ids_requests base up _ _ _ E) as (d1 & r1 & F1 & Q1 & N1).
  rewrite (N1 _ eq_refl), app_nil_r in F1. subst d1.
  destruct (fetch_details base up s a m w1) as [r w2] eqn:Dt.
  destruct (fetch_details_requests base up s a m _ _ _ Dt)
    as (d2 & r2 & F2 & Q2 & N2).
  exists d2, r2. split; [exact F2|].
  rewrite fetch_spec, B. split; [|split].
  - rewrite app_assoc, <- Q1, <- Q2. destruct r; reflexivity.
  - cbn [fst]. intros t ->. eapply N2. reflexivity.
  - intros c al me. destruct r as [e|t]; cbn [fst]; intros H.
    + injection H as <- <- <-. auto.
    + injection H as ->. eapply fetch_details_results. exact Dt.
Qed.


(** Compares two addresses under the same base: either they differ in the
    path, or the query strings are equal. *)
Ltac same_url H :=
  apply append_inv_head in H;
  first [ apply append_inv_head in H | cbn in H; discriminate H ].

(** When the endpoint returns a list, and which. *)
Lemma show_products_iff
        (base : string) (D : Type) (to_dict : Product -> D)
        (up : list string -> string -> res pyval) (w : world) (l : list D) :
  fst (show_storefront_products base D to_dict up w) = Ok (Products l) <->
  exists canciones albumes merch s a m,
    fst (fetch base up w) = Ok (canciones, albumes, merch) /\
    mapped_in_order map_song canciones s /\
    mapped_in_order map_album albumes a /\
    mapped_in_order map_merch merch m /\
    l = (map to_dict s ++ map to_dict a ++ map to_dict m)%list.
Proof.
  destruct (fetch_returns base up w) as ([[c al] me] & w1 & F & _).
  rewrite (show_spec _ _ _ _ _ _ _ F), F. cbn [fst]. split.
  - destruct (build_productos c al me) as [e|ps] eqn:B; [discriminate|].
    cbn [fst]. intros H. injection H as <-.
    apply build_productos_spec in B as (s & a & m & Hs & Ha & Hm & ->).
    exists c, al, me, s, a, m. rewrite !map_app. auto 10.
  - intros (c' & al' & me' & s & a & m & E & Hs & Ha & Hm & ->).
    injection E as <- <- <-.
    assert (B : build_productos c al me = Ok (s ++ a ++ m)%list)
      by (apply build_productos_spec; eauto 10).
    rewrite B. unfold Ok. cbn [fst]. now rewrite !map_app.
Qed.

(** ** The record sets and the answers of the upstream service *)

Lemma fetch_body_ids_raise base up w e w1 :
  fetch_ids base up w = (Raise e, w1) ->
  fetch_body base up w = (Raise e, w1).
Proof. intros E. unfold fetch_body, bind. now rewrite E. Qed.


(** Unfolds the detail phase along the outcomes of its requests. *)
Ltac run_details up :=
  unfold fetch_details, detail_exchanges, bind, client_get_json, ret;
  cbv zeta; cbn [truthy exchanges stdout app fst snd];
  repeat match goal with
         | |- context [up ?h ?u] =>
             destruct (up h u); cbn [exchanges stdout app fst snd]
         end.

Lemma fetch_details_answered base up s a m w c al me w' :
  fetch_details base up s a m w = (Ok (c, al, me), w') ->
  exchanges w'
  = (exchanges w ++ detail_exchanges base s a m c al me)%list /\
  (s = [] -> c = PList []) /\ (a = [] -> al = PList []) /\
  (m = [] -> me = PList []).
Proof.
  destruct s, a, m; run_details up; intros H; try discriminate H;
    injection H as <- <- <- <-; cbn [exchanges];
    rewrite <- ?app_assoc, ?app_nil_r; cbn [app];
    repeat split; (reflexivity || discriminate).
Qed.

Lemma fetch_details_from_log base up s a m w c al me :
  exchanges (snd (fetch_details base up s a m w))
  = (exchanges w ++ detail_exchanges base s a m c al me)%list ->
  (s = [] -> c = PList []) -> (a = [] -> al = PList []) ->
  (m = [] -> me = PList []) ->
  fst (fetch_details base up s a m w) = Ok (c, al, me).
Proof.
  destruct s, a, m; run_details up; intros H Hs Ha Hm;
    rewrite <- ?app_assoc in H; cbn [app] in H;
    try (apply app_inv_head in H);
    try (rewrite <- (app_nil_r (exchanges w)) in H at 1;
         apply app_inv_head in H);
    try discriminate H;
    try (injection H as H; discriminate H);
    try (injection H as H1 H2; discriminate H2);
    try (injection H as H1 H2 H3; discriminate H3);
    repeat match goal with
           | Hx : [] = [] -> _ |- _ => specialize (Hx eq_refl)
           end;
    subst;
    try (injection H; intros; subst); reflexivity.
Qed.

Lemma answered_iff base up w c al me :
  answered base up w c al me <->
  fst (fetch_body base up w) = Ok (c, al, me).
Proof.
  split.
  - intros (s & a & m & w1 & E & L & Hs & Ha & Hm).
    rewrite (fetch_body_after_ids _ _ _ _ _ _ _ E) in *.
    now apply fetch_details_from_log.
  - intros B.
    destruct (fetch_ids base up w) as [[e|[[s a] m]] w1] eqn:E.
    + rewrite (fetch_body_ids_raise _ _ _ _ _ E) in B. discriminate B.
    + exists s, a, m, w1. split; [exact E|].
      rewrite (fetch_body_after_ids _ _ _ _ _ _ _ E) in *.
      destruct (fetch_details base up s a m w1) as [r w2] eqn:Dt.
      cbn [fst snd] in *. subst r.
      exact (fetch_details_answered _ _ _ _ _ _ _ _ _ _ Dt).
Qed.

Lemma record_sets_iff base up w c al me :
  record_sets base up w c al me <->
  fst (fetch base up w) = Ok (c, al, me).
Proof.
  unfold record_sets. rewrite answered_iff, fetch_spec.
  destruct (fetch_body base up w) as [[e|t] w1]; cbn [fst]; split.
  - intros [H|(_ & -> & -> & ->)]; [discriminate H | reflexivity].
  - intros H. injection H as <- <- <-. right. eauto.
  - intros [H|([e H] & _)]; [exact H | discriminate H].
  - intros H. now left.
Qed.

(* ===================================================================== *)
(** ** Properties of the aggregation *)
(* ===================================================================== *)

(** C1.  A failed exchange with the upstream service, at whatever request of
    the identifier phase or of the detail phase, leaves the three record sets
    empty; the exception stops at the inner handler and the endpoint returns
    the empty product list, not an error object. *)
Theorem failed_exchange_degrades_to_empty
        (base : string) (D : Type) (to_dict : Product -> D)
        (up : list string -> string -> res pyval)
        (w : world) (new : list (string * res pyval))
        (url : string) (e : pyexn) :
  exchanges (snd (show_storefront_products base D to_dict up w))
  = (exchanges w ++ new)%list ->
  In (url, Raise e) new ->
  fst (fetch base up w) = Ok (PList [], PList [], PList []) /\
  fst (show_storefront_products base D to_dict up w) = Ok (Products []).
Proof.
  intros Hlog Hin. rewrite show_exchanges in Hlog.
  pose proof (fetch_spec base up w) as F.
  destruct (fetch_body base up w) as [[e0|t] w1] eqn:B.
  - rewrite F. split; [reflexivity|].
    rewrite (show_spec _ _ _ _ _ _ _ F). reflexivity.
  - exfalso.
    destruct (loud_fetch_body base up _ _ _ B) as (new' & E & Hok).
    cbn [snd] in Hlog. rewrite E in Hlog.
    apply app_inv_head in Hlog. subst new'.
    specialize (Hok t eq_refl).
    rewrite Forall_forall in Hok.
    destruct (Hok _ Hin) as [v Hv]. discriminate Hv.
Qed.

Lemma failed_exchange_degrades_to_empty_witness :
  fst (fetch "http://tya" refusing fresh) = Ok (PList [], PList [], PList []) /\
  fst (show_storefront_products "http://tya" Product (fun p => p) refusing fresh)
  = Ok (Products []).
Proof.
  apply (failed_exchange_degrades_to_empty
           "http://tya" Product (fun p => p) refusing fresh
           [("http://tya/song/filter", Raise (UpstreamError "connection refused"))]
           "http://tya/song/filter" (UpstreamError "connection refused")).
  - reflexivity.
  - simpl. left. reflexivity.
Defined.

(** C2, as amended.  An album's genre follows the same rule as a song's: the
    text of the first element of [genres] when that entry is truthy, and
    ["0"] when it is absent or falsy.  The fixed ["Merch"] belongs to
    merchandising only. *)
Theorem album_genre_from_upstream (a : pyval) (p : Product) :
  map_album a = Ok p ->
  exists d,
    a = PDict d /\
    genre_of a = Ok (genre p) /\
    (truthy (field d "genres") = false -> genre p = PStr "0") /\
    (forall g rest, lookup "genres" d = Some (PList (g :: rest)) ->
                    genre p = PStr (py_str g)) /\
    (forall c q, map_song c = Ok q -> get c "genres" = get a "genres" ->
                 genre q = genre p) /\
    (forall m q, map_merch m = Ok q -> genre q = PStr "Merch").
Proof.
  intros H. destruct (map_album_dict _ _ H) as [d ->]. exists d.
  destruct (map_album_inv _ _ H) as (sl & g & cs & _ & Hg & _ & ->).
  cbn [genre]. split; [reflexivity|]. split; [assumption|].
  split; [|split; [|split]].
  - intros T. rewrite (genre_of_falsy _ T) in Hg. now injection Hg.
  - intros g0 rest L. rewrite (genre_of_list _ _ _ L) in Hg. now injection Hg.
  - intros c q Hq G. destruct (map_song_dict _ _ Hq) as [d' ->].
    destruct (map_song_inv _ _ Hq) as (g' & cs' & Hg' & _ & ->).
    cbn [genre]. unfold genre_of in Hg, Hg'. rewrite G in Hg'.
    rewrite !get_dict in *. injection G as G.
    cbn [rbind Ok] in Hg, Hg'.
    destruct (truthy (field d "genres")) eqn:T.
    + unfold get_default, field in *.
      destruct (lookup "genres" d') as [x'|], (lookup "genres" d) as [x|];
        subst; try discriminate T;
        unfold Ok in *; congruence.
    + unfold Ok in *. congruence.
  - intros m q Hq. destruct (map_merch_dict _ _ Hq) as [d' ->].
    destruct (map_merch_inv _ _ Hq) as (cs' & _ & ->). reflexivity.
Qed.

(** C2 as written fails: this album's genre is ["7"], not ["Merch"]. *)
Lemma album_genre_is_not_merch :
  exists p, map_album album_with_genre = Ok p /\
            genre p = PStr "7" /\ genre p <> PStr "Merch".
Proof.
  eexists. split; [reflexivity|]. split; [reflexivity|discriminate].
Qed.

Lemma album_genre_from_upstream_witness :
  exists p d,
    map_album album_with_genre = Ok p /\
    album_with_genre = PDict d /\ genre_of album_with_genre = Ok (genre p).
Proof.
  eexists.
  destruct (album_genre_from_upstream album_with_genre _ eq_refl)
    as (d & Ha & Hg & _).
  exists d. split; [reflexivity|]. split; assumption.
Defined.

(** C3.  On a filter response that is a list of JSON objects, the extraction
    returns, in order, the identifier entries that are truthy: an object
    without the entry, or with a falsy one such as [0], gives nothing, so as
    many identifiers come out as there are truthy entries. *)
Theorem extract_ids_keeps_truthy_in_order (key : string) (items : list pyval) :
  Forall (fun it => is_dict it = true) items ->
  exists ids,
    extract_ids key (PList items) = Ok ids /\
    ids = filter truthy (raw_ids key items) /\
    List.length ids = count_truthy (raw_ids key items) /\
    ~ In (PInt 0) ids /\ ~ In PNone ids.
Proof.
  intros H. eexists. split; [|split; [reflexivity|]].
  - unfold extract_ids. cbn [iter rbind Ok]. now apply ids_of_items_dicts.
  - split; [apply filter_length_count|].
    split; intros Hin; apply filter_In in Hin as [_ T]; discriminate T.
Qed.

Lemma extract_ids_keeps_truthy_in_order_witness :
  exists ids,
    extract_ids "songId"
      (PList [PDict [("songId", PInt 1)]; PDict [("songId", PInt 0)];
              PDict []; PDict [("songId", PInt 2)]]) = Ok ids /\
    ids = [PInt 1; PInt 2] /\ List.length ids = 2.
Proof.
  destruct (extract_ids_keeps_truthy_in_order "songId"
              [PDict [("songId", PInt 1)]; PDict [("songId", PInt 0)];
               PDict []; PDict [("songId", PInt 2)]])
    as (ids & E & -> & L & _).
  - repeat constructor.
  - eexists. split; [exact E|]. split; reflexivity.
Defined.



(** C5.  The endpoint returns a product list exactly when the three record
    sets can be mapped, the record sets being what the upstream service
    answered to the detail requests (or empty, for a kind that is not asked
    and when the fetch step raised).  The list is then the products of the
    songs, then those of the albums, then those of the merchandising, each
    group one for one in the order of its detail response. *)
Theorem output_is_songs_then_albums_then_merch
        (base : string) (D : Type) (to_dict : Product -> D)
        (up : list string -> string -> res pyval) (w : world) (l : list D) :
  fst (show_storefront_products base D to_dict up w) = Ok (Products l) <->
  exists canciones albumes merch s a m,
    record_sets base up w canciones albumes merch /\
    mapped_in_order map_song canciones s /\
    mapped_in_order map_album albumes a /\
    mapped_in_order map_merch merch m /\
    l = (map to_dict s ++ map to_dict a ++ map to_dict m)%list.
Proof.
  rewrite show_products_iff.
  split; intros (c & al & me & s & a & m & R & H);
    exists c, al, me, s, a, m; (split; [|exact H]);
    now apply record_sets_iff.
Qed.

Lemma output_is_songs_then_albums_then_merch_witness :
  exists l,
    fst (show_storefront_products "http://tya" Product (fun p => p)
           full_shop fresh) = Ok (Products l) /\
    map identifiers l
    = [(PInt 1, PInt 1, PInt 0); (PInt 2, PInt 1, PInt 0);
       (PInt 0, PInt 4, PInt 0); (PInt 0, PInt 0, PInt 9)] /\
    exists canciones albumes merch s a m,
      record_sets "http://tya" full_shop fresh canciones albumes merch /\
      mapped_in_order map_song canciones s /\
      mapped_in_order map_album albumes a /\
      mapped_in_order map_merch merch m /\
      l = (map (fun p => p) s ++ map (fun p => p) a ++ map (fun p => p) m)%list.
Proof.
  eexists. split; [reflexivity|]. split; [reflexivity|].
  apply (proj1 (output_is_songs_then_albums_then_merch
                  "http://tya" Product (fun p => p) full_shop fresh _)).
  reflexivity.
Defined.

(** C6.  Once the identifiers are known, a request to a [list] endpoint is
    made only for a kind that has identifiers, and its [ids] parameter is
    the identifiers' texts joined by commas, in the order of the filter
    phase; when no request fails, every kind that has identifiers is
    requested.  Identifiers 1, 2, 3 give ["1,2,3"]. *)
Theorem detail_request_joins_identifiers
        (base : string) (up : list string -> string -> res pyval)
        (w w1 : world) (s a m : list pyval) (new : list string) :
  fetch_ids base up w = (Ok (s, a, m), w1) ->
  requested (snd (fetch base up w)) = (requested w ++ new)%list ->
  (forall q, In (base ++ "/song/list?ids=" ++ q) new ->
             s <> [] /\ q = join_str "," s) /\
  (forall q, In (base ++ "/album/list?ids=" ++ q) new ->
             a <> [] /\ q = join_str "," a) /\
  (forall q, In (base ++ "/merch/list?ids=" ++ q) new ->
             m <> [] /\ q = join_str "," m) /\
  (forall t, fst (fetch_body base up w) = Ok t ->
             (s <> [] -> In (base ++ "/song/list?ids=" ++ join_str "," s) new) /\
             (a <> [] -> In (base ++ "/album/list?ids=" ++ join_str "," a) new) /\
             (m <> [] -> In (base ++ "/merch/list?ids=" ++ join_str "," m) new)) /\
  join_str "," [PInt 1; PInt 2; PInt 3] = "1,2,3".
Proof.
  intros E L.
  destruct (fetch_log _ _ _ _ _ _ _ E) as (done & rest & U & Q & N & _).
  rewrite Q in L. apply app_inv_head in L. subst new.
  assert (Hin : forall x, In x (filter_urls base ++ done)%list ->
                          In x (filter_urls base) \/
                          In x (detail_urls base s a m)).
  { intros x Hx. apply in_app_iff in Hx as [Hx|Hx]; [now left|right].
    rewrite U. apply in_app_iff. now left. }
  split; [|split; [|split; [|split; [|reflexivity]]]].
  - intros q Hq. apply Hin in Hq as [Hq|Hq].
    + apply in_filter_urls in Hq as [Hq|[Hq|Hq]]; same_url Hq.
    + apply in_detail_urls in Hq as [[N1 Hq]|[[N1 Hq]|[N1 Hq]]];
        same_url Hq. auto.
  - intros q Hq. apply Hin in Hq as [Hq|Hq].
    + apply in_filter_urls in Hq as [Hq|[Hq|Hq]]; same_url Hq.
    + apply in_detail_urls in Hq as [[N1 Hq]|[[N1 Hq]|[N1 Hq]]];
        same_url Hq. auto.
  - intros q Hq. apply Hin in Hq as [Hq|Hq].
    + apply in_filter_urls in Hq as [Hq|[Hq|Hq]]; same_url Hq.
    + apply in_detail_urls in Hq as [[N1 Hq]|[[N1 Hq]|[N1 Hq]]];
        same_url Hq. auto.
  - intros t Ht. rewrite (N t Ht), app_nil_r in U. subst done.
    repeat split; intros Hne; apply in_app_iff; right;
      apply in_detail_urls; auto.
Qed.

Lemma detail_request_joins_identifiers_witness :
  In "http://tya/song/list?ids=1,2"
     (requested (snd (fetch "http://tya" catalogue fresh))).
Proof.
  destruct (detail_request_joins_identifiers
              "http://tya" catalogue fresh
              (snd (fetch_ids "http://tya" catalogue fresh))
              [PInt 1; PInt 2] [] []
              ["http://tya/song/filter"; "http://tya/album/filter";
               "http://tya/merch/filter"; "http://tya/song/list?ids=1,2"]
              eq_refl eq_refl)
    as (_ & _ & _ & H & _).
  destruct (H _ eq_refl) as (Hs & _).
  apply Hs. discriminate.
Defined.

(** C7.  The endpoint never raises.  When one of the mapping loops raises,
    it returns the [Error] whose code is ["500"] and whose message is the
    text of the exception; and it returns an [Error] in that case only. *)
Theorem mapping_exception_gives_error_500
        (base : string) (D : Type) (to_dict : Product -> D)
        (up : list string -> string -> res pyval) (w : world) :
  exists canciones albumes merch w1,
    fetch base up w = (Ok (canciones, albumes, merch), w1) /\
    (forall e,
        build_productos canciones albumes merch = Raise e ->
        fst (show_storefront_products base D to_dict up w)
        = Ok (Failure (mkError (PStr "500") (PStr (exn_str e))))) /\
    (forall err,
        fst (show_storefront_products base D to_dict up w) = Ok (Failure err) ->
        exists e, build_productos canciones albumes merch = Raise e /\
                  err = mkError (PStr "500") (PStr (exn_str e))) /\
    (forall e, fst (show_storefront_products base D to_dict up w) <> Raise e).
Proof.
  destruct (fetch_returns base up w) as ([[c al] me] & w1 & F & _).
  exists c, al, me, w1. split; [exact F|].
  rewrite (show_spec _ _ _ _ _ _ _ F).
  destruct (build_productos c al me) as [e|ps]; cbn [fst];
    split; [|split| |split].
  - intros e' H. injection H as <-. reflexivity.
  - intros err H. injection H as <-. exists e. split; reflexivity.
  - discriminate.
  - discriminate.
  - discriminate.
  - discriminate.
Qed.

Lemma mapping_exception_example :
  fst (show_storefront_products "http://tya" Product (fun p => p) garbled fresh)
  = Ok (Failure (mkError (PStr "500")
                         (PStr "'int' object has no attribute 'get'"))).
Proof. reflexivity. Qed.

(** C8, as amended.  The products of a returned list come in three
    groups, songs, albums, merchandising, each mapped from the records the
    upstream service answered for that kind.  In each group the identity and
    kind-specific fields that the kind does not read from its record hold
    the constants [0] and [[]], never null: for a song [merchId] and
    [songList]; for an album [songId], [merchId] and [duration]; for
    merchandising [songId], [albumId], [duration] and [songList].  The
    kind's own identifier is copied from the record as it is, null when the
    record lacks it; when it is truthy the product belongs to exactly that
    one kind by the rule of the identity fields. *)
Theorem output_products_carry_neutral_defaults
        (base : string) (D : Type) (to_dict : Product -> D)
        (up : list string -> string -> res pyval) (w : world) (l : list D) :
  fst (show_storefront_products base D to_dict up w) = Ok (Products l) ->
  exists canciones albumes merch s a m,
    record_sets base up w canciones albumes merch /\
    mapped_in_order map_song canciones s /\
    mapped_in_order map_album albumes a /\
    mapped_in_order map_merch merch m /\
    l = (map to_dict s ++ map to_dict a ++ map to_dict m)%list /\
    Forall (fun p => song_shape p /\
                     merch_id p <> PNone /\ song_list p <> PNone /\
                     (truthy (song_id p) = true -> kinds_of p = [Song])) s /\
    Forall (fun p => album_shape p /\
                     song_id p <> PNone /\ merch_id p <> PNone /\
                     duration p <> PNone /\
                     (truthy (album_id p) = true -> kinds_of p = [Album])) a /\
    Forall (fun p => merch_shape p /\
                     song_id p <> PNone /\ album_id p <> PNone /\
                     duration p <> PNone /\ song_list p <> PNone /\
                     (truthy (merch_id p) = true -> kinds_of p = [Merch])) m /\
    (forall r p, map_song r = Ok p -> get r "songId" = Ok (song_id p)) /\
    (forall r p, map_album r = Ok p -> get r "albumId" = Ok (album_id p)) /\
    (forall r p, map_merch r = Ok p -> get r "merchId" = Ok (merch_id p)).
Proof.
  intros H.
  apply show_products_iff in H
    as (c & al & me & s & a & m & F & Hs & Ha & Hm & ->).
  exists c, al, me, s, a, m.
  split; [now apply record_sets_iff|].
  repeat (split; [assumption || reflexivity|]).
  split; [|split; [|split; [|split; [|split]]]].
  - eapply mapped_forall; [|exact Hs]. intros x p Hp.
    pose proof (song_has_shape _ _ Hp) as S. split; [exact S|].
    destruct S as (M & L). rewrite M, L.
    split; [discriminate|]. split; [discriminate|].
    intros T. unfold kinds_of. rewrite T, M. cbn.
    rewrite ?andb_false_r. reflexivity.
  - eapply mapped_forall; [|exact Ha]. intros x p Hp.
    pose proof (album_has_shape _ _ Hp) as S. split; [exact S|].
    destruct S as (Si & M & Du). rewrite Si, M, Du.
    repeat (split; [discriminate|]).
    intros T. unfold kinds_of. rewrite T, Si, M. cbn.
    rewrite ?andb_false_r. reflexivity.
  - eapply mapped_forall; [|exact Hm]. intros x p Hp.
    pose proof (merch_has_shape _ _ Hp) as S. split; [exact S|].
    destruct S as (Si & Al & Du & L). rewrite Si, Al, Du, L.
    repeat (split; [discriminate|]).
    intros T. unfold kinds_of. rewrite T, Si, Al. cbn.
    rewrite ?andb_false_r. reflexivity.
  - intros r p Hp. destruct (map_song_dict _ _ Hp) as [d ->].
    destruct (map_song_inv _ _ Hp) as (? & ? & _ & _ & ->). reflexivity.
  - intros r p Hp. destruct (map_album_dict _ _ Hp) as [d ->].
    destruct (map_album_inv _ _ Hp) as (? & ? & ? & _ & _ & _ & ->).
    reflexivity.
  - intros r p Hp. destruct (map_merch_dict _ _ Hp) as [d ->].
    destruct (map_merch_inv _ _ Hp) as (? & _ & ->). reflexivity.
Qed.

(** C8 as written fails: the upstream service answers the merchandising
    details with a record that has no [merchId]; its product has a null
    [merchId] beside [songId] and [albumId] at [0], and belongs to no
    kind. *)
Lemma unlabelled_merch_belongs_to_no_kind :
  exists p,
    fst (show_storefront_products "http://tya" Product (fun p => p)
           (shop (PList []) (PList [])
                 (PList [PDict [("title", PStr "Band T-Shirt")]]))
           fresh) = Ok (Products [p]) /\
    identifiers p = (PInt 0, PInt 0, PNone) /\
    kinds_of p = [] /\
    ~ (exists k, kinds_of p = [k]).
Proof.
  eexists. split; [reflexivity|]. split; [reflexivity|].
  split; [reflexivity|]. intros [k H]. discriminate H.
Qed.

Lemma output_products_carry_neutral_defaults_witness :
  exists l,
    fst (show_storefront_products "http://tya" Product (fun p => p)
           full_shop fresh) = Ok (Products l) /\
    map kinds_of l = [[Song]; [Song]; [Album]; [Merch]] /\
    exists s a m,
      l = (map (fun p => p) s ++ map (fun p => p) a ++ map (fun p => p) m)%list /\
      Forall (fun p => song_shape p) s /\
      Forall (fun p => album_shape p) a /\
      Forall (fun p => merch_shape p) m.
Proof.
  eexists. split; [reflexivity|]. split; [reflexivity|].
  destruct (output_products_carry_neutral_defaults
              "http://tya" Product (fun p => p) full_shop fresh _ eq_refl)
    as (c & al & me & s & a & m & _ & _ & _ & _ & E & Fs & Fa & Fm & _).
  exists s, a, m. split; [exact E|].
  repeat split; eapply Forall_impl; try eassumption; cbv beta; tauto.
Defined.

(** C9.  The mapper is a function of the record alone, and on a well-formed
    record each of its three forms returns a product.  An absent or empty
    [genres] gives the genre ["0"], a non-empty one the text of its first
    element; absent [collaborators] and [songs] give empty lists.  Whatever
    the record, the subscript [[0]] never runs out of range; and building
    the [Product] raises nothing, even from a record with no entry at all. *)
Theorem mapper_total_on_well_formed (r : pyval) :
  well_formed r = true ->
  exists d ps pa pm,
    r = PDict d /\
    map_song r = Ok ps /\ map_album r = Ok pa /\ map_merch r = Ok pm /\
    (truthy (field d "genres") = false ->
     genre ps = PStr "0" /\ genre pa = PStr "0") /\
    (forall g rest, lookup "genres" d = Some (PList (g :: rest)) ->
                    genre ps = PStr (py_str g) /\ genre pa = PStr (py_str g)) /\
    (lookup "collaborators" d = None ->
     colaborators ps = PList [] /\ colaborators pa = PList [] /\
     colaborators pm = PList []) /\
    (lookup "songs" d = None -> song_list pa = PList []) /\
    (forall x msg, genre_of x <> Raise (IndexError msg)) /\
    (exists p, map_song (PDict []) = Ok p /\ name p = PNone /\
               price p = PNone /\ cover p = PNone).
Proof.
  destruct r as [| | | | | |d]; try discriminate.
  cbn [well_formed]. intros H.
  apply andb_prop in H as [H Hs]. apply andb_prop in H as [Hg Hc].
  destruct (map_song_total d Hg Hc) as [ps Es].
  destruct (map_album_total d Hg Hc Hs) as [pa Ea].
  destruct (map_merch_total d Hc) as [pm Em].
  exists d, ps, pa, pm. repeat (split; [solve [auto]|]).
  destruct (map_song_inv _ _ Es) as (g1 & c1 & G1 & C1 & ->).
  destruct (map_album_inv _ _ Ea) as (sl & g2 & c2 & S2 & G2 & C2 & ->).
  destruct (map_merch_inv _ _ Em) as (c3 & C3 & ->).
  cbn [genre colaborators song_list].
  split; [|split; [|split; [|split; [|split]]]].
  - intros T. rewrite (genre_of_falsy _ T) in G1, G2.
    injection G1 as <-. injection G2 as <-. auto.
  - intros g rest L. rewrite (genre_of_list _ _ _ L) in G1, G2.
    injection G1 as <-. injection G2 as <-. auto.
  - intros L. rewrite (str_list_of_absent _ _ L) in C1, C2, C3.
    injection C1 as <-. injection C2 as <-. injection C3 as <-. auto.
  - intros L. rewrite (str_list_of_absent _ _ L) in S2.
    injection S2 as <-. reflexivity.
  - exact genre_of_no_index_error.
  - eexists. split; [reflexivity|]. repeat split.
Qed.

Lemma mapper_total_on_well_formed_witness :
  exists ps pa pm,
    map_song (PDict [("songId", PInt 3)]) = Ok ps /\
    map_album (PDict [("songId", PInt 3)]) = Ok pa /\
    map_merch (PDict [("songId", PInt 3)]) = Ok pm /\
    genre ps = PStr "0" /\ colaborators ps = PList [].
Proof.
  destruct (mapper_total_on_well_formed (PDict [("songId", PInt 3)]) eq_refl)
    as (d & ps & pa & pm & E & Hs & Ha & Hm & Hg & _ & Hc & _).
  injection E as <-.
  exists ps, pa, pm. repeat (split; [assumption|]).
  split; [apply Hg | apply Hc]; reflexivity.
Defined.

(** C10.  A field that the record lacks is read as [None] and passed on as
    it is: the artist becomes the text ["None"], the release date
    ["NoneT00:00:00Z"], and a song without [duration] has a null duration. *)
Theorem missing_common_field_is_not_defaulted
        (d : list (string * pyval)) (p : Product) :
  map_song (PDict d) = Ok p \/ map_album (PDict d) = Ok p \/
  map_merch (PDict d) = Ok p ->
  (lookup "artistId" d = None -> artist p = PStr "None") /\
  (lookup "releaseDate" d = None ->
   release_date p = PStr "NoneT00:00:00Z") /\
  (lookup "duration" d = None -> map_song (PDict d) = Ok p ->
   duration p = PNone /\ duration p <> PInt 0).
Proof.
  intros H.
  assert (A : artist p = PStr (py_str (field d "artistId")) /\
              release_date p
              = PStr (py_str (field d "releaseDate") ++ "T00:00:00Z")).
  { destruct H as [H|[H|H]].
    - destruct (map_song_inv _ _ H) as (? & ? & _ & _ & ->). auto.
    - destruct (map_album_inv _ _ H) as (? & ? & ? & _ & _ & _ & ->). auto.
    - destruct (map_merch_inv _ _ H) as (? & _ & ->). auto. }
  destruct A as [A R]. unfold field in *. split; [|split].
  - intros L. rewrite L in A. exact A.
  - intros L. rewrite L in R. exact R.
  - intros L Hs. destruct (map_song_inv _ _ Hs) as (? & ? & _ & _ & ->).
    cbn [duration]. unfold field. rewrite L. split; [reflexivity|discriminate].
Qed.

Lemma missing_common_field_is_not_defaulted_witness :
  exists p,
    map_song (PDict [("songId", PInt 3); ("title", PStr "Untitled")]) = Ok p /\
    artist p = PStr "None" /\ release_date p = PStr "NoneT00:00:00Z" /\
    duration p = PNone.
Proof.
  eexists. split; [reflexivity|].
  destruct (missing_common_field_is_not_defaulted
              [("songId", PInt 3); ("title", PStr "Untitled")] _
              (or_introl eq_refl))
    as (Ha & Hr & Hd).
  split; [exact (Ha eq_refl)|]. split; [exact (Hr eq_refl)|].
  exact (proj1 (Hd eq_refl eq_refl)).
Defined.

(* ===================================================================== *)
(** ** Further properties of the controller *)
(* ===================================================================== *)

(** *** The console and the log of one call *)

Lemma quiet_ret A (a : A) : quiet (ret a).
Proof. intros w r w' H. now injection H as <- <-. Qed.

Lemma quiet_lift A (r : res A) : quiet (lift r).
Proof. intros w r' w' H. now injection H as <- <-. Qed.

Lemma quiet_bind A B (m : M A) (k : A -> M B) :
  quiet m -> (forall a, quiet (k a)) -> quiet (bind m k).
Proof.
  intros Hm Hk w r w'. unfold bind.
  destruct (m w) as [[e|a] w1] eqn:E; intros H.
  - injection H as <- <-. eauto.
  - rewrite (Hk _ _ _ _ H). eauto.
Qed.

Lemma quiet_client_get_json up url : quiet (client_get_json up url).
Proof. intros w r w' H. now injection H as <- <-. Qed.

Create HintDb quiet.
#[local] Hint Resolve quiet_ret quiet_lift quiet_bind quiet_client_get_json
  : quiet.

Lemma quiet_fetch_body base up : quiet (fetch_body base up).
Proof.
  unfold fetch_body, fetch_ids. apply quiet_bind; [auto 10 with quiet|].
  intros [[s a] m]. unfold fetch_details.
  repeat (apply quiet_bind; [destruct (truthy _); auto with quiet | intros ?]).
  auto with quiet.
Qed.

Lemma stops_ret A (a : A) : stops_at_failure (ret a).
Proof.
  intros w r w' H. injection H as <- <-. exists [].
  rewrite app_nil_r. split; [reflexivity | constructor].
Qed.

Lemma stops_lift A (r : res A) : stops_at_failure (lift r).
Proof.
  intros w r' w' H. injection H as <- <-. exists [].
  rewrite app_nil_r. split; [reflexivity|].
  destruct r; [left|]; constructor.
Qed.

Lemma stops_client_get_json up url : stops_at_failure (client_get_json up url).
Proof.
  intros w r w' H. injection H as <- <-. eexists. split; [reflexivity|].
  destruct (up _ url) as [e|v].
  - right. exists [], url. split; [reflexivity | constructor].
  - repeat constructor. now exists v.
Qed.

Lemma stops_bind A B (m : M A) (k : A -> M B) :
  stops_at_failure m -> (forall a, stops_at_failure (k a)) ->
  stops_at_failure (bind m k).
Proof.
  intros Hm Hk w r w'. unfold bind.
  destruct (m w) as [[e|a] w1] eqn:E; intros H.
  - injection H as <- <-. exact (Hm _ _ _ E).
  - destruct (Hm _ _ _ E) as (n1 & E1 & F1).
    destruct (Hk a _ _ _ H) as (n2 & E2 & F2).
    exists (n1 ++ n2)%list. split; [now rewrite E2, E1, app_assoc|].
    destruct r as [e|b].
    + destruct F2 as [F2|(pre & url & -> & F2)].
      * left. apply Forall_app. now split.
      * right. exists (n1 ++ pre)%list, url.
        split; [now rewrite app_assoc|]. apply Forall_app. now split.
    + apply Forall_app. now split.
Qed.

Create HintDb stops.
#[local] Hint Resolve stops_ret stops_lift stops_bind stops_client_get_json
  : stops.

Lemma stops_fetch_body base up : stops_at_failure (fetch_body base up).
Proof.
  unfold fetch_body, fetch_ids. apply stops_bind; [auto 10 with stops|].
  intros [[s a] m]. unfold fetch_details.
  repeat (apply stops_bind; [destruct (truthy _); auto with stops | intros ?]).
  auto with stops.
Qed.

(** What one call prints. *)
Lemma show_stdout base D to_dict up w :
  stdout (snd (show_storefront_products base D to_dict up w)) =
  (stdout w ++
   match fst (fetch_body base up w) with
   | inl e => [("Error al conectar con Temas y Autores: " ++ exn_str e)%string]
   | inr (canciones, albumes, merch) =>
       match build_productos canciones albumes merch with
       | inl e =>
           [("Error general al obtener los productos: " ++ exn_str e)%string]
       | inr _ => []
       end
   end)%list.
Proof.
  pose proof (fetch_spec base up w) as F.
  destruct (fetch_body base up w) as [[e|[[c a] m]] w1] eqn:B;
    rewrite (show_spec _ _ _ _ _ _ _ F); cbn [fst snd stdout];
    rewrite <- (quiet_fetch_body _ _ _ _ _ B).
  - reflexivity.
  - destruct (build_productos c a m); cbn [snd stdout];
      [reflexivity | now rewrite app_nil_r].
Qed.

(** X1.  A request that fails is the last request of the call, every
    request before it succeeded, and the call prints one line, the
    connection message followed by the text of that failure. *)
Theorem failed_request_is_last_and_logged
        (base : string) (D : Type) (to_dict : Product -> D)
        (up : list string -> string -> res pyval)
        (w : world) (new : list (string * res pyval))
        (url : string) (e : pyexn) :
  exchanges (snd (show_storefront_products base D to_dict up w))
  = (exchanges w ++ new)%list ->
  In (url, Raise e) new ->
  (exists pre, new = (pre ++ [(url, Raise e)])%list /\ Forall succeeded pre) /\
  stdout (snd (show_storefront_products base D to_dict up w))
  = (stdout w ++
     [("Error al conectar con Temas y Autores: " ++ exn_str e)%string])%list.
Proof.
  intros Hlog Hin. rewrite show_stdout. rewrite show_exchanges in Hlog.
  destruct (fetch_body base up w) as [r w1] eqn:B.
  destruct (stops_fetch_body base up _ _ _ B) as (new' & E & Hr).
  cbn [snd] in Hlog. rewrite E in Hlog. apply app_inv_head in Hlog.
  subst new'. cbn [fst].
  assert (Hbad : ~ succeeded (url, Raise e)) by (intros [v Hv]; discriminate).
  destruct r as [e0|t].
  - destruct Hr as [Hr|(pre & url0 & -> & Hpre)].
    + rewrite Forall_forall in Hr. elim Hbad. auto.
    + apply in_app_iff in Hin as [Hin|[Hin|[]]].
      * rewrite Forall_forall in Hpre. elim Hbad. auto.
      * injection Hin as -> ->. eauto.
  - rewrite Forall_forall in Hr. elim Hbad. auto.
Qed.

Lemma failed_request_is_last_and_logged_witness :
  stdout (snd (show_storefront_products "http://tya" Product (fun p => p)
                 refusing fresh))
  = ["Error al conectar con Temas y Autores: connection refused"].
Proof.
  apply (failed_request_is_last_and_logged
           "http://tya" Product (fun p => p) refusing fresh
           [("http://tya/song/filter", Raise (UpstreamError "connection refused"))]
           "http://tya/song/filter" (UpstreamError "connection refused")).
  - reflexivity.
  - left. reflexivity.
Defined.

(** X2.  A call prints at most one line, and it prints none exactly when
    the fetch step met no exception and a product list is returned. *)
Theorem at_most_one_line_printed
        (base : string) (D : Type) (to_dict : Product -> D)
        (up : list string -> string -> res pyval) (w : world) :
  exists lines,
    stdout (snd (show_storefront_products base D to_dict up w))
    = (stdout w ++ lines)%list /\
    List.length lines <= 1 /\
    (lines = [] <->
     (exists t, fst (fetch_body base up w) = Ok t) /\
     (exists l, fst (show_storefront_products base D to_dict up w)
                = Ok (Products l))).
Proof.
  eexists. split; [apply show_stdout|].
  pose proof (fetch_spec base up w) as F.
  destruct (fetch_body base up w) as [[e|[[c a] m]] w1] eqn:B;
    rewrite (show_spec _ _ _ _ _ _ _ F); cbn [fst].
  - split; [cbn; lia|]. split; [discriminate|].
    intros [[t Ht] _]. discriminate Ht.
  - destruct (build_productos c a m) as [e|ps]; cbn [fst].
    + split; [cbn; lia|]. split; [discriminate|].
      intros [_ [l Hl]]. discriminate Hl.
    + split; [cbn; lia|]. split; [|reflexivity].
      intros _. split; eauto.
Qed.

(** *** The requests of one call, continued *)

Lemma opens_client_get_json up url : opens_with (client_get_json up url) url.
Proof. intros w. now exists (up (map fst (exchanges w)) url), []. Qed.

Lemma opens_bind A B (m : M A) (k : A -> M B) url :
  opens_with m url -> (forall a, loud (k a)) -> opens_with (bind m k) url.
Proof.
  intros Hm Hk w. destruct (Hm w) as (r & tail & E). unfold bind.
  destruct (m w) as [[e|a] w1]; cbn [snd] in *.
  - now exists r, tail.
  - destruct (k a w1) as [r2 w2] eqn:K.
    destruct (Hk a _ _ _ K) as (new & E2 & _). cbn [snd].
    exists r, (tail ++ new)%list.
    now rewrite E2, E, <- app_assoc.
Qed.

Lemma opens_fetch_body base up :
  opens_with (fetch_body base up) (base ++ "/song/filter").
Proof.
  unfold fetch_body. apply opens_bind.
  - unfold fetch_ids. apply opens_bind; [apply opens_client_get_json|].
    intros ?. auto 10 using loud_client_get_json with loud.
  - intros [[s a] m]. apply loud_fetch_details.
Qed.

Lemma show_requested base D to_dict up w :
  requested (snd (show_storefront_products base D to_dict up w))
  = requested (snd (fetch_body base up w)).
Proof. unfold requested. now rewrite show_exchanges. Qed.

Lemma prefix_length {A} (l done rest : list A) :
  l = (done ++ rest)%list -> List.length done <= List.length l.
Proof. intros ->. rewrite length_app. lia. Qed.

Lemma detail_urls_length base s a m :
  List.length (detail_urls base s a m) <= 3.
Proof.
  unfold detail_urls. cbv zeta.
  destruct (truthy (PList s)), (truthy (PList a)), (truthy (PList m));
    cbn; lia.
Qed.

(** The requests of a call are an initial part of the three filter
    addresses, or all three followed by an initial part of the detail
    addresses. *)
Lemma requests_shape base up w new :
  requested (snd (fetch_body base up w)) = (requested w ++ new)%list ->
  (exists rest e, fst (fetch_ids base up w) = Raise e /\
                  filter_urls base = (new ++ rest)%list) \/
  (exists s a m done rest,
      fst (fetch_ids base up w) = Ok (s, a, m) /\
      detail_urls base s a m = (done ++ rest)%list /\
      new = (filter_urls base ++ done)%list /\
      (forall t, fst (fetch_body base up w) = Ok t -> rest = [])).
Proof.
  intros L. destruct (fetch_ids base up w) as [[e|[[s a] m]] w1] eqn:E.
  - left. rewrite (fetch_body_ids_raise _ _ _ _ _ E) in L. cbn [snd] in L.
    destruct (fetch_ids_requests base up _ _ _ E) as (d & r & F & Q & _).
    rewrite Q in L. apply app_inv_head in L. subst d.
    exists r, e. split; [reflexivity | exact F].
  - right. destruct (fetch_log _ _ _ _ _ _ _ E) as (d & r & U & Q & N & _).
    rewrite fetch_spec in Q.
    assert (Q' : requested (snd (fetch_body base up w))
                 = (requested w ++ filter_urls base ++ d)%list).
    { rewrite <- Q. now destruct (fetch_body base up w) as [[?|?] ?]. }
    rewrite Q' in L. apply app_inv_head in L. subst new.
    exists s, a, m, d, r. auto.
Qed.

(** X3.  Every call makes at least one request and at most six, and the
    first one goes to the song filter. *)
Theorem between_one_and_six_requests
        (base : string) (D : Type) (to_dict : Product -> D)
        (up : list string -> string -> res pyval)
        (w : world) (new : list string) :
  requested (snd (show_storefront_products base D to_dict up w))
  = (requested w ++ new)%list ->
  exists tail, new = (base ++ "/song/filter") :: tail /\
               List.length tail <= 5.
Proof.
  rewrite show_requested. intros L.
  destruct (opens_fetch_body base up w) as (r & tail & O).
  assert (H : new = (base ++ "/song/filter") :: map fst tail).
  { unfold requested in L. rewrite O, map_app in L.
    apply app_inv_head in L. now subst new. }
  exists (map fst tail). split; [exact H|].
  assert (Hlen : List.length new <= 6).
  { destruct (requests_shape _ _ _ _ L)
      as [(rest & e & _ & F)|(s & a & m & d & rest & _ & U & -> & _)].
    - apply prefix_length in F. cbn in F. lia.
    - rewrite length_app. apply prefix_length in U.
      pose proof (detail_urls_length base s a m). cbn [filter_urls List.length].
      lia. }
  rewrite H in Hlen. cbn in Hlen. lia.
Qed.

Lemma between_one_and_six_requests_witness :
  exists tail,
    requested (snd (show_storefront_products "http://tya" Product (fun p => p)
                      catalogue fresh))
    = "http://tya/song/filter" :: tail /\ List.length tail <= 5.
Proof.
  destruct (between_one_and_six_requests
              "http://tya" Product (fun p => p) catalogue fresh
              ["http://tya/song/filter"; "http://tya/album/filter";
               "http://tya/merch/filter"; "http://tya/song/list?ids=1,2"]
              eq_refl) as (tail & E & L).
  exists tail. split; [|exact L].
  cbn. f_equal. now injection E.
Defined.

(** What follows when the identifier phase raises. *)
Lemma ids_raise_consequences
        (base : string) (D : Type) (to_dict : Product -> D)
        (up : list string -> string -> res pyval)
        (w w1 : world) (e : pyexn) (new : list string) :
  fetch_ids base up w = (Raise e, w1) ->
  requested (snd (show_storefront_products base D to_dict up w))
  = (requested w ++ new)%list ->
  (exists rest, filter_urls base = (new ++ rest)%list) /\
  fst (show_storefront_products base D to_dict up w) = Ok (Products []).
Proof.
  intros E. rewrite show_requested. intros L.
  pose proof (fetch_body_ids_raise _ _ _ _ _ E) as B.
  split.
  - destruct (requests_shape _ _ _ _ L)
      as [(rest & e' & _ & F)|(s & a & m & d & rest & F & _)]; [eauto|].
    rewrite E in F. discriminate F.
  - pose proof (fetch_spec base up w) as F. rewrite B in F.
    now rewrite (show_spec _ _ _ _ _ _ _ F).
Qed.

(** X4.  When the identifier phase raises, whether at a request or while
    the identifiers are extracted, the detail phase is skipped: only filter
    addresses were requested, and the endpoint returns the empty list. *)
Theorem identifier_failure_skips_details
        (base : string) (D : Type) (to_dict : Product -> D)
        (up : list string -> string -> res pyval)
        (w w1 : world) (e : pyexn) (new : list string) :
  fetch_ids base up w = (Raise e, w1) ->
  requested (snd (show_storefront_products base D to_dict up w))
  = (requested w ++ new)%list ->
  (exists rest, filter_urls base = (new ++ rest)%list) /\
  fst (show_storefront_products base D to_dict up w) = Ok (Products []).
Proof. apply ids_raise_consequences. Qed.

Lemma identifier_failure_skips_details_witness :
  fst (show_storefront_products "http://tya" Product (fun p => p)
         refusing fresh) = Ok (Products []).
Proof.
  apply (identifier_failure_skips_details
           "http://tya" Product (fun p => p) refusing fresh
           (snd (fetch_ids "http://tya" refusing fresh))
           (UpstreamError "connection refused")
           ["http://tya/song/filter"] eq_refl eq_refl).
Defined.

(** X5.  When the fetch step meets no exception, the requests of the call
    are exactly the three filter addresses, songs, albums, merchandising,
    followed by the detail addresses of the kinds that have identifiers, in
    the same order. *)
Theorem requests_of_a_clean_fetch
        (base : string) (up : list string -> string -> res pyval)
        (w w2 : world) (t : pyval * pyval * pyval) :
  fetch_body base up w = (Ok t, w2) ->
  exists s a m,
    fst (fetch_ids base up w) = Ok (s, a, m) /\
    requested w2
    = (requested w ++ filter_urls base ++ detail_urls base s a m)%list.
Proof.
  intros B.
  destruct (fetch_ids base up w) as [[e|[[s a] m]] w1] eqn:E.
  - rewrite (fetch_body_ids_raise _ _ _ _ _ E) in B. discriminate B.
  - exists s, a, m. split; [reflexivity|].
    destruct (fetch_log _ _ _ _ _ _ _ E) as (d & r & U & Q & N & _).
    rewrite fetch_spec, B in Q. rewrite B in N. cbn [fst snd] in Q, N.
    rewrite (N t eq_refl), app_nil_r in U. now rewrite U.
Qed.

Lemma requests_of_a_clean_fetch_witness :
  requested (snd (fetch_body "http://tya" catalogue fresh))
  = ["http://tya/song/filter"; "http://tya/album/filter";
     "http://tya/merch/filter"; "http://tya/song/list?ids=1,2"].
Proof.
  destruct (requests_of_a_clean_fetch
              "http://tya" catalogue fresh
              (snd (fetch_body "http://tya" catalogue fresh))
              _ eq_refl) as (s & a & m & E & Q).
  injection E as <- <- <-. exact Q.
Defined.

(** *** The extraction of identifiers, continued *)

Lemma ids_of_items_ok_dicts key items : forall ids,
  ids_of_items key items = Ok ids ->
  Forall (fun it => is_dict it = true) items.
Proof.
  induction items as [|it rest IH]; intros ids; [constructor|].
  cbn [ids_of_items].
  destruct it; try discriminate.
  rewrite get_dict. cbn [rbind Ok]. intros H.
  constructor; [reflexivity|].
  destruct (truthy (field d key)).
  - destruct (ids_of_items key rest) as [e|tl]; [discriminate|]. eauto.
  - eauto.
Qed.

Lemma ids_of_items_first_bad key pre x post :
  Forall (fun it => is_dict it = true) pre ->
  is_dict x = false ->
  ids_of_items key (pre ++ x :: post) = Raise (no_attribute x "get").
Proof.
  intros Hpre Hx. induction Hpre as [|it rest Hit _ IH]; cbn [app ids_of_items].
  - destruct x; try reflexivity. discriminate Hx.
  - destruct it; try discriminate Hit.
    rewrite get_dict. cbn [rbind Ok]. rewrite IH.
    destruct (truthy (field d key)); reflexivity.
Qed.

(** X6.  The extraction returns identifiers exactly when the response can
    be iterated and every item is a JSON object; what it returns is then
    the truthy identifier entries, in order. *)
Theorem extract_ids_returns_iff (key : string) (response : pyval)
        (ids : list pyval) :
  extract_ids key response = Ok ids <->
  exists items,
    iter response = Ok items /\
    Forall (fun it => is_dict it = true) items /\
    ids = filter truthy (raw_ids key items).
Proof.
  unfold extract_ids. split.
  - destruct (iter response) as [e|items]; [discriminate|]. cbn [rbind].
    intros H. exists items. split; [reflexivity|].
    pose proof (ids_of_items_ok_dicts _ _ _ H) as Hd. split; [exact Hd|].
    rewrite (ids_of_items_dicts key items Hd) in H. now injection H.
  - intros (items & -> & Hd & ->). cbn [rbind Ok].
    now apply ids_of_items_dicts.
Qed.

(** X7.  One entry that is not a JSON object spoils the whole extraction:
    it raises the [AttributeError] of the first such entry, whatever
    identifiers the other entries carry. *)
Theorem extract_ids_first_malformed_entry
        (key : string) (pre post : list pyval) (x : pyval) :
  Forall (fun it => is_dict it = true) pre ->
  is_dict x = false ->
  extract_ids key (PList (pre ++ x :: post)) = Raise (no_attribute x "get") /\
  exn_str (no_attribute x "get")
  = String squote (type_name x) ++ String squote " object has no attribute "
      ++ String squote "get" ++ String squote "".
Proof.
  intros Hpre Hx. split; [|reflexivity].
  unfold extract_ids. cbn [iter rbind Ok].
  now apply ids_of_items_first_bad.
Qed.

Lemma extract_ids_first_malformed_entry_witness :
  extract_ids "songId"
    (PList [PDict [("songId", PInt 1)]; PInt 7; PDict [("songId", PInt 2)]])
  = Raise (AttributeError "'int' object has no attribute 'get'").
Proof.
  apply (extract_ids_first_malformed_entry
           "songId" [PDict [("songId", PInt 1)]] [PDict [("songId", PInt 2)]]
           (PInt 7)).
  - repeat constructor.
  - reflexivity.
Defined.

Lemma fetch_ids_reads_each_filter_aux base up w w1 s a m :
  fetch_ids base up w = (Ok (s, a, m), w1) ->
  exists r1, up (map fst (exchanges w)) (base ++ "/song/filter") = Ok r1 /\
             extract_ids "songId" r1 = Ok s.
Proof.
  unfold fetch_ids, bind, client_get_json, lift, ret.
  destruct (up (map fst (exchanges w)) _) as [e|r1]; [discriminate|].
  cbn [exchanges stdout].
  destruct (up _ (base ++ "/album/filter")) as [e|r2]; [discriminate|].
  cbn [exchanges stdout].
  destruct (up _ (base ++ "/merch/filter")) as [e|r3]; [discriminate|].
  destruct (extract_ids "songId" r1) as [e|s'] eqn:E1; [discriminate|].
  destruct (extract_ids "albumId" r2) as [e|a'] eqn:E2; [discriminate|].
  destruct (extract_ids "merchId" r3) as [e|m'] eqn:E3; [discriminate|].
  intros H. injection H as <- <- <- <-. eauto.
Qed.

(** X8.  The identifiers the first step returns are, kind by kind, the
    extraction of that kind's own filter response under that kind's own
    key, and the three filter exchanges, all successful, are what the step
    added to the log. *)
Theorem fetch_ids_reads_each_filter
        (base : string) (up : list string -> string -> res pyval)
        (w w1 : world) (s a m : list pyval) :
  fetch_ids base up w = (Ok (s, a, m), w1) ->
  exists r1 r2 r3,
    exchanges w1
    = (exchanges w ++ [((base ++ "/song/filter")%string, Ok r1);
                       ((base ++ "/album/filter")%string, Ok r2);
                       ((base ++ "/merch/filter")%string, Ok r3)])%list /\
    extract_ids "songId" r1 = Ok s /\
    extract_ids "albumId" r2 = Ok a /\
    extract_ids "merchId" r3 = Ok m /\
    stdout w1 = stdout w.
Proof.
  unfold fetch_ids, bind, client_get_json, lift, ret.
  destruct (up (map fst (exchanges w)) _) as [e|r1]; [discriminate|].
  cbn [exchanges stdout].
  destruct (up _ (base ++ "/album/filter")) as [e|r2]; [discriminate|].
  cbn [exchanges stdout].
  destruct (up _ (base ++ "/merch/filter")) as [e|r3]; [discriminate|].
  destruct (extract_ids "songId" r1) as [e|s'] eqn:E1; [discriminate|].
  destruct (extract_ids "albumId" r2) as [e|a'] eqn:E2; [discriminate|].
  destruct (extract_ids "merchId" r3) as [e|m'] eqn:E3; [discriminate|].
  intros H. injection H as <- <- <- <-.
  exists r1, r2, r3. cbn [exchanges stdout].
  rewrite <- !app_assoc. cbn [app]. auto.
Qed.

Lemma fetch_ids_reads_each_filter_witness :
  exists r1,
    extract_ids "songId" r1 = Ok [PInt 1; PInt 2] /\
    In ("http://tya/song/filter", Ok r1)
       (exchanges (snd (fetch_ids "http://tya" catalogue fresh))).
Proof.
  destruct (fetch_ids_reads_each_filter
              "http://tya" catalogue fresh
              (snd (fetch_ids "http://tya" catalogue fresh))
              [PInt 1; PInt 2] [] [] eq_refl)
    as (r1 & r2 & r3 & L & E1 & _).
  exists r1. split; [exact E1|]. rewrite L. left. reflexivity.
Defined.

(** X9.  When the song filter answers with a list in which some entry is
    not a JSON object, the call requests nothing beyond the filter
    addresses and returns the empty list, whatever the albums and the
    merchandising hold. *)
Theorem malformed_song_filter_empties_catalogue
        (base : string) (D : Type) (to_dict : Product -> D)
        (up : list string -> string -> res pyval)
        (w : world) (items : list pyval) (x : pyval) (new : list string) :
  up (requested w) (base ++ "/song/filter") = Ok (PList items) ->
  In x items -> is_dict x = false ->
  requested (snd (show_storefront_products base D to_dict up w))
  = (requested w ++ new)%list ->
  (exists rest, filter_urls base = (new ++ rest)%list) /\
  fst (show_storefront_products base D to_dict up w) = Ok (Products []).
Proof.
  intros U Hin Hx L.
  destruct (fetch_ids base up w) as [[e|[[s a] m]] w1] eqn:E.
  - exact (ids_raise_consequences _ _ _ _ _ _ _ _ E L).
  - exfalso.
    destruct (fetch_ids_reads_each_filter_aux base up w w1 s a m E)
      as (r1 & U1 & E1).
    unfold requested in U. rewrite U in U1. injection U1 as <-.
    apply extract_ids_returns_iff in E1 as (its & I & Hd & _).
    injection I as <-. rewrite Forall_forall in Hd.
    rewrite (Hd _ Hin) in Hx. discriminate Hx.
Qed.

Lemma malformed_song_filter_empties_catalogue_witness :
  fst (show_storefront_products "http://tya" Product (fun p => p) sloppy fresh)
  = Ok (Products []).
Proof.
  apply (malformed_song_filter_empties_catalogue
           "http://tya" Product (fun p => p) sloppy fresh
           [PDict [("songId", PInt 1)]; PInt 7] (PInt 7)
           ["http://tya/song/filter"; "http://tya/album/filter";
            "http://tya/merch/filter"]).
  - reflexivity.
  - right. left. reflexivity.
  - reflexivity.
  - reflexivity.
Defined.

(** *** The mapping loops, continued *)

Lemma mapped_length make v ps :
  mapped_in_order make v ps ->
  exists items, iter v = Ok items /\ List.length ps = List.length items.
Proof.
  intros (items & I & F). exists items. split; [exact I|].
  symmetry. exact (Forall2_length F).
Qed.

(** X10.  A returned list has one product for each record the upstream
    service answered to the three detail requests: nothing is dropped and
    nothing is added. *)
Theorem one_product_per_record
        (base : string) (D : Type) (to_dict : Product -> D)
        (up : list string -> string -> res pyval) (w : world) (l : list D) :
  fst (show_storefront_products base D to_dict up w) = Ok (Products l) ->
  exists canciones albumes merch cs als ms,
    record_sets base up w canciones albumes merch /\
    iter canciones = Ok cs /\ iter albumes = Ok als /\ iter merch = Ok ms /\
    List.length l = List.length cs + List.length als + List.length ms.
Proof.
  intros H.
  apply show_products_iff in H
    as (c & al & me & s & a & m & F & Hs & Ha & Hm & ->).
  destruct (mapped_length _ _ _ Hs) as (cs & Ic & Ls).
  destruct (mapped_length _ _ _ Ha) as (als & Ia & La).
  destruct (mapped_length _ _ _ Hm) as (ms & Im & Lm).
  exists c, al, me, cs, als, ms.
  split; [now apply record_sets_iff|].
  repeat (split; [assumption|]).
  rewrite !length_app, !length_map. lia.
Qed.

Lemma one_product_per_record_witness :
  exists l canciones albumes merch,
    fst (show_storefront_products "http://tya" Product (fun p => p)
           full_shop fresh) = Ok (Products l) /\
    record_sets "http://tya" full_shop fresh canciones albumes merch /\
    (canciones, albumes, merch) = (two_songs, one_album, one_merch) /\
    List.length l = 4.
Proof.
  destruct (one_product_per_record
              "http://tya" Product (fun p => p) full_shop fresh _ eq_refl)
    as (c & al & me & cs & als & ms & R & Ic & Ia & Im & L).
  eexists. exists c, al, me. split; [reflexivity|]. split; [exact R|].
  apply record_sets_iff in R. injection R as <- <- <-.
  split; reflexivity.
Defined.

Lemma common_fields_of r p :
  map_song r = Ok p \/ map_album r = Ok p \/ map_merch r = Ok p ->
  exists d cs,
    r = PDict d /\
    str_list_of r "collaborators" = Ok cs /\
    name p = field d "title" /\
    artist p = PStr (py_str (field d "artistId")) /\
    release_date p = PStr (py_str (field d "releaseDate") ++ "T00:00:00Z") /\
    description p = field d "description" /\
    cover p = field d "cover" /\ price p = field d "price" /\
    colaborators p = cs.
Proof.
  intros [H|[H|H]].
  - destruct (map_song_dict _ _ H) as [d ->].
    destruct (map_song_inv _ _ H) as (g & cs & _ & C & ->).
    exists d, cs. cbn. auto 10.
  - destruct (map_album_dict _ _ H) as [d ->].
    destruct (map_album_inv _ _ H) as (sl & g & cs & _ & _ & C & ->).
    exists d, cs. cbn. auto 10.
  - destruct (map_merch_dict _ _ H) as [d ->].
    destruct (map_merch_inv _ _ H) as (cs & C & ->).
    exists d, cs. cbn. auto 10.
Qed.

(** X11.  Mapped as a song, as an album or as merchandising, one record
    gives the same name, artist, release date, description, cover, price
    and collaborators: the kinds differ in the other fields only. *)
Theorem common_fields_do_not_depend_on_kind (r : pyval) (p q : Product) :
  map_song r = Ok p \/ map_album r = Ok p \/ map_merch r = Ok p ->
  map_song r = Ok q \/ map_album r = Ok q \/ map_merch r = Ok q ->
  same_common p q.
Proof.
  intros Hp Hq.
  destruct (common_fields_of _ _ Hp)
    as (d & cs & -> & C & N & A & R & De & Co & Pr & Cl).
  destruct (common_fields_of _ _ Hq)
    as (d' & cs' & E & C' & N' & A' & R' & De' & Co' & Pr' & Cl').
  injection E as <-. rewrite C in C'. injection C' as <-.
  unfold same_common. rewrite N, A, R, De, Co, Pr, Cl.
  rewrite N', A', R', De', Co', Pr', Cl'. auto 10.
Qed.

Lemma common_fields_do_not_depend_on_kind_witness :
  exists p q,
    map_song (test_song 1 "Test Song 1" "1.99" 180) = Ok p /\
    map_merch (test_song 1 "Test Song 1" "1.99" 180) = Ok q /\
    same_common p q /\ genre p <> genre q.
Proof.
  do 2 eexists. split; [reflexivity|]. split; [reflexivity|].
  split; [|discriminate].
  apply (common_fields_do_not_depend_on_kind
           (test_song 1 "Test Song 1" "1.99" 180)).
  - left. reflexivity.
  - right. right. reflexivity.
Defined.

Lemma str_list_of_is_str_list r k v :
  str_list_of r k = Ok v -> is_str_list v = true.
Proof.
  unfold str_list_of.
  destruct (get_default r k (PList [])) as [e|l]; [discriminate|].
  cbn [rbind]. destruct (iter l) as [e|items]; [discriminate|].
  cbn [rbind]. intros H. injection H as <-. cbn [is_str_list].
  induction items; [reflexivity|]. cbn. assumption.
Qed.

Lemma genre_of_is_str r g : genre_of r = Ok g -> is_str g = true.
Proof.
  unfold genre_of. destruct (get r "genres") as [e|c]; [discriminate|].
  cbn [rbind]. destruct (truthy c).
  - destruct (get_default r "genres" _) as [e|x]; [discriminate|]. cbn [rbind].
    destruct (item0 x) as [e|g0]; [discriminate|]. cbn [rbind].
    intros H. now injection H as <-.
  - intros H. now injection H as <-.
Qed.

Lemma mapped_text_fields_are_strings_aux r p :
  map_song r = Ok p \/ map_album r = Ok p \/ map_merch r = Ok p ->
  is_str (artist p) = true /\ is_str_list (colaborators p) = true.
Proof.
  intros H. destruct (common_fields_of _ _ H)
    as (d & cs & -> & C & _ & A & _ & _ & _ & _ & Cl).
  rewrite A, Cl. split; [reflexivity|].
  exact (str_list_of_is_str_list _ _ _ C).
Qed.

(** X12.  In every mapped product the artist, the release date and the
    genre are strings, and the collaborators and the song list are lists of
    strings, whatever the types of the upstream values. *)
Theorem mapped_text_fields_are_strings (r : pyval) (p : Product) :
  map_song r = Ok p \/ map_album r = Ok p \/ map_merch r = Ok p ->
  is_str (artist p) = true /\ is_str (release_date p) = true /\
  is_str (genre p) = true /\
  is_str_list (colaborators p) = true /\ is_str_list (song_list p) = true.
Proof.
  intros [H|[H|H]].
  - destruct (map_song_dict _ _ H) as [d ->].
    destruct (map_song_inv _ _ H) as (g & cs & G & C & ->). cbn.
    rewrite (genre_of_is_str _ _ G), (str_list_of_is_str_list _ _ _ C). auto.
  - destruct (map_album_dict _ _ H) as [d ->].
    destruct (map_album_inv _ _ H) as (sl & g & cs & S & G & C & ->). cbn.
    rewrite (genre_of_is_str _ _ G), (str_list_of_is_str_list _ _ _ C),
      (str_list_of_is_str_list _ _ _ S). auto.
  - destruct (map_merch_dict _ _ H) as [d ->].
    destruct (map_merch_inv _ _ H) as (cs & C & ->). cbn.
    rewrite (str_list_of_is_str_list _ _ _ C). auto.
Qed.

Lemma mapped_text_fields_are_strings_witness :
  exists p,
    map_album (PDict [("artistId", PInt 12); ("songs", PList [PInt 1; PInt 2])])
    = Ok p /\
    artist p = PStr "12" /\ song_list p = PList [PStr "1"; PStr "2"] /\
    is_str (genre p) = true.
Proof.
  eexists. split; [reflexivity|]. split; [reflexivity|]. split; [reflexivity|].
  apply (mapped_text_fields_are_strings
           (PDict [("artistId", PInt 12); ("songs", PList [PInt 1; PInt 2])])).
  right. left. reflexivity.
Defined.

Lemma mapped_items_all_map make v ps :
  mapped_in_order make v ps ->
  forall items x, iter v = Ok items -> In x items -> exists p, make x = Ok p.
Proof.
  intros (items & I & F) items' x I' Hin.
  rewrite I in I'. injection I' as <-. clear I. revert Hin.
  induction F as [|y p ys qs Hy _ IH]; intros Hin; [contradiction|].
  destruct Hin as [<-|Hin]; eauto.
Qed.

Lemma bad_record_not_mapped make v ps :
  has_bad_record make v -> ~ mapped_in_order make v ps.
Proof.
  intros (items & x & e & I & Hin & Hx) Hm.
  destruct (mapped_items_all_map _ _ _ Hm _ _ I Hin) as [p Hp].
  rewrite Hx in Hp. discriminate Hp.
Qed.

(** X13.  When the upstream service answered every detail request, one
    record that cannot be mapped, of any kind and at any place in its
    answer, turns the whole result into the [Error] with code ["500"]: the
    products of the other records are not returned. *)
Theorem one_bad_record_fails_the_call
        (base : string) (D : Type) (to_dict : Product -> D)
        (up : list string -> string -> res pyval) (w : world)
        (canciones albumes merch : pyval) :
  answered base up w canciones albumes merch ->
  has_bad_record map_song canciones \/ has_bad_record map_album albumes \/
  has_bad_record map_merch merch ->
  exists e,
    fst (show_storefront_products base D to_dict up w)
    = Ok (Failure (mkError (PStr "500") (PStr (exn_str e)))).
Proof.
  intros A Hbad.
  assert (R : fst (fetch base up w) = Ok (canciones, albumes, merch))
    by (apply record_sets_iff; now left).
  destruct (fetch base up w) as [r w1] eqn:F. cbn [fst] in R. subst r.
  rewrite (show_spec _ _ _ _ _ _ _ F).
  destruct (build_productos canciones albumes merch) as [e|ps] eqn:B.
  - exists e. reflexivity.
  - exfalso.
    apply build_productos_spec in B as (s & a & m & Hs & Ha & Hm & _).
    destruct Hbad as [H|[H|H]];
      eapply bad_record_not_mapped; eauto.
Qed.

(** The two songs are fine and the only merchandising record is a number. *)
Lemma one_bad_record_fails_the_call_witness :
  (exists s, mapped_in_order map_song two_songs s /\ List.length s = 2) /\
  exists e,
    fst (show_storefront_products "http://tya" Product (fun p => p)
           (shop two_songs (PList []) (PList [PInt 5])) fresh)
    = Ok (Failure (mkError (PStr "500") (PStr (exn_str e)))).
Proof.
  split.
  - eexists. split.
    + eexists. split; [reflexivity|].
      econstructor; [reflexivity|]. econstructor; [reflexivity|]. constructor.
    + reflexivity.
  - apply (one_bad_record_fails_the_call
             "http://tya" Product (fun p => p)
             (shop two_songs (PList []) (PList [PInt 5])) fresh
             two_songs (PList []) (PList [PInt 5])).
    + exists [PInt 1; PInt 2], [PInt 4], [PInt 9].
      eexists. split; [reflexivity|]. split; [reflexivity|].
      repeat split; discriminate.
    + right. right. exists [PInt 5], (PInt 5). eexists.
      split; [reflexivity|]. split; [left; reflexivity | reflexivity].
Defined.

Lemma for_append_first_bad make pre x post e : forall acc,
  Forall (fun y => exists p, make y = Ok p) pre ->
  make x = Raise e ->
  for_append make (pre ++ x :: post) acc = Raise e.
Proof.
  induction pre as [|y pre IH]; intros acc Hpre Hx; cbn [app for_append].
  - rewrite Hx. reflexivity.
  - inversion Hpre as [|? ? [p Hp] Hrest]; subst.
    rewrite Hp. cbn [rbind Ok]. now apply IH.
Qed.

(** X14.  The songs are mapped first and in the order of the answer of
    the upstream service, so when a song record cannot be mapped the
    message of the [Error] is the text of the exception of the first such
    record, whatever comes after it and whatever the albums and the
    merchandising hold. *)
Theorem first_bad_song_gives_the_message
        (base : string) (D : Type) (to_dict : Product -> D)
        (up : list string -> string -> res pyval) (w : world)
        (canciones albumes merch : pyval)
        (pre post : list pyval) (x : pyval) (e : pyexn) :
  answered base up w canciones albumes merch ->
  iter canciones = Ok (pre ++ x :: post)%list ->
  Forall (fun y => exists p, map_song y = Ok p) pre ->
  map_song x = Raise e ->
  fst (show_storefront_products base D to_dict up w)
  = Ok (Failure (mkError (PStr "500") (PStr (exn_str e)))).
Proof.
  intros A I Hpre Hx.
  assert (R : fst (fetch base up w) = Ok (canciones, albumes, merch))
    by (apply record_sets_iff; now left).
  destruct (fetch base up w) as [r w1] eqn:F. cbn [fst] in R. subst r.
  rewrite (show_spec _ _ _ _ _ _ _ F).
  unfold build_productos. rewrite I. cbn [rbind Ok].
  rewrite (for_append_first_bad _ _ _ _ _ [] Hpre Hx). reflexivity.
Qed.

(** A good song, then a number, then a string; and an album that is null:
    the message is the one of the number. *)
Lemma first_bad_song_gives_the_message_witness :
  fst (show_storefront_products "http://tya" Product (fun p => p)
         (shop (PList [test_song 1 "Test Song 1" "1.99" 180;
                       PInt 5; PStr "oops"])
               (PList [PNone]) (PList []))
         fresh)
  = Ok (Failure (mkError (PStr "500")
                         (PStr "'int' object has no attribute 'get'"))).
Proof.
  apply (first_bad_song_gives_the_message
           "http://tya" Product (fun p => p)
           (shop (PList [test_song 1 "Test Song 1" "1.99" 180;
                         PInt 5; PStr "oops"])
                 (PList [PNone]) (PList []))
           fresh
           (PList [test_song 1 "Test Song 1" "1.99" 180; PInt 5; PStr "oops"])
           (PList [PNone]) (PList [])
           [test_song 1 "Test Song 1" "1.99" 180] [PStr "oops"] (PInt 5)
           (no_attribute (PInt 5) "get")).
  - exists [PInt 1; PInt 2], [PInt 4], [PInt 9].
    eexists. split; [reflexivity|]. split; [reflexivity|].
    repeat split; discriminate.
  - reflexivity.
  - repeat constructor. eexists. reflexivity.
  - reflexivity.
Defined.


(** *** Edge cases of the mapper *)

(** X16.  An explicit null is not a missing entry: a record whose
    [collaborators] is null cannot be mapped as any kind, and as
    merchandising it raises the [TypeError] of iterating [None]; the same
    record without the entry maps with no collaborators. *)
Theorem null_collaborators_cannot_be_mapped (d : list (string * pyval)) :
  lookup "collaborators" d = Some PNone ->
  map_merch (PDict d)
  = Raise (TypeError "'NoneType' object is not iterable") /\
  (forall p, map_song (PDict d) <> Ok p) /\
  (forall p, map_album (PDict d) <> Ok p).
Proof.
  intros L.
  assert (C : str_list_of (PDict d) "collaborators"
              = Raise (TypeError "'NoneType' object is not iterable")).
  { unfold str_list_of, get_default. rewrite L. reflexivity. }
  split; [|split].
  - unfold map_merch, artist_of, release_date_of.
    rewrite !get_dict, C. reflexivity.
  - intros p H. destruct (map_song_inv _ _ H) as (? & cs & _ & C' & _).
    rewrite C in C'. discriminate C'.
  - intros p H. destruct (map_album_inv _ _ H) as (? & ? & cs & _ & _ & C' & _).
    rewrite C in C'. discriminate C'.
Qed.

Lemma null_collaborators_cannot_be_mapped_witness :
  map_merch (PDict [("merchId", PInt 9); ("collaborators", PNone)])
  = Raise (TypeError "'NoneType' object is not iterable") /\
  exists p, map_merch (PDict [("merchId", PInt 9)]) = Ok p /\
            colaborators p = PList [].
Proof.
  split.
  - apply (null_collaborators_cannot_be_mapped
             [("merchId", PInt 9); ("collaborators", PNone)] eq_refl).
  - eexists. split; reflexivity.
Defined.

(** X17.  The genre rule on a [genres] entry that is not a list: a falsy
    value of any type gives ["0"]; a string that begins with an ASCII
    character gives that character; a non-zero number raises a
    [TypeError]; a non-empty object raises the [KeyError] whose text is
    ["0"]. *)
Theorem genre_of_non_list_genres (d : list (string * pyval)) :
  (forall v, lookup "genres" d = Some v -> truthy v = false ->
             genre_of (PDict d) = Ok (PStr "0")) /\
  (forall c rest, lookup "genres" d = Some (PStr (String c rest)) ->
                  (N_of_ascii c < 128)%N ->
                  genre_of (PDict d) = Ok (PStr (String c ""))) /\
  (forall z, lookup "genres" d = Some (PInt z) -> z <> 0%Z ->
             genre_of (PDict d)
             = Raise (TypeError "'int' object is not subscriptable")) /\
  (forall kv o, lookup "genres" d = Some (PDict (kv :: o)) ->
                genre_of (PDict d) = Raise (KeyError (PInt 0)) /\
                exn_str (KeyError (PInt 0)) = "0").
Proof.
  repeat split.
  - intros v L T. apply genre_of_falsy. unfold field. now rewrite L.
  - intros c rest L _. now rewrite (genre_of_truthy _ _ L).
  - intros z L Hz. rewrite (genre_of_truthy _ _ L); [reflexivity|].
    cbn. now destruct (Z.eqb_spec z 0).
  - now rewrite (genre_of_truthy _ _ H).
Qed.


Lemma genre_of_non_list_genres_witness :
  genre_of (PDict [("genres", PStr "rock")]) = Ok (PStr "r").
Proof.
  apply (proj1 (proj2 (genre_of_non_list_genres [("genres", PStr "rock")]))
               "r"%char "ock" eq_refl).
  reflexivity.
Defined.

(* ===================================================================== *)
(** ** Properties of the model classes *)
(* ===================================================================== *)

Lemma set_name_own p :
  ProductSetters.set_name p (name p) = inr p <-> name p <> PNone.
Proof.
  destruct p as [? ? ? n ? ? ? ? ? ? ? ? ?]. unfold ProductSetters.set_name.
  cbn. destruct n; cbn; split; intros H; congruence.
Qed.

Lemma set_price_own p :
  ProductSetters.set_price p (price p) = inr p <-> price p <> PNone.
Proof.
  destruct p as [? ? ? ? n ? ? ? ? ? ? ? ?]. unfold ProductSetters.set_price.
  cbn. destruct n; cbn; split; intros H; congruence.
Qed.

Lemma set_description_own p :
  ProductSetters.set_description p (description p) = inr p
  <-> description p <> PNone.
Proof.
  destruct p as [? ? ? ? ? n ? ? ? ? ? ? ?].
  unfold ProductSetters.set_description.
  cbn. destruct n; cbn; split; intros H; congruence.
Qed.

Lemma set_artist_own p :
  ProductSetters.set_artist p (artist p) = inr p <-> artist p <> PNone.
Proof.
  destruct p as [? ? ? ? ? ? n ? ? ? ? ? ?]. unfold ProductSetters.set_artist.
  cbn. destruct n; cbn; split; intros H; congruence.
Qed.

Lemma set_colaborators_own p :
  ProductSetters.set_colaborators p (colaborators p) = inr p
  <-> colaborators p <> PNone.
Proof.
  destruct p as [? ? ? ? ? ? ? n ? ? ? ? ?].
  unfold ProductSetters.set_colaborators.
  cbn. destruct n; cbn; split; intros H; congruence.
Qed.

Lemma set_cover_own p :
  ProductSetters.set_cover p (cover p) = inr p <-> cover p <> PNone.
Proof.
  destruct p as [? ? ? ? ? ? ? ? ? ? ? n ?]. unfold ProductSetters.set_cover.
  cbn. destruct n; cbn; split; intros H; congruence.
Qed.

Lemma str_not_none v : is_str v = true -> v <> PNone.
Proof. destruct v; discriminate. Qed.

Lemma str_list_not_none v : is_str_list v = true -> v <> PNone.
Proof. destruct v; discriminate. Qed.

(** X18.  The constructor does not validate, so the controller can build a
    product the model's own setters refuse.  A mapped product always passes
    the artist and collaborators setters; it passes all six validating
    setters exactly when its record has a non-null title, price,
    description and cover; and without a title the name setter raises its
    [ValueError]. *)
Theorem mapped_product_accepted_iff
        (d : list (string * pyval)) (p : Product) :
  map_song (PDict d) = Ok p \/ map_album (PDict d) = Ok p \/
  map_merch (PDict d) = Ok p ->
  ProductSetters.set_artist p (artist p) = inr p /\
  ProductSetters.set_colaborators p (colaborators p) = inr p /\
  (ProductSetters.accepted p <->
   field d "title" <> PNone /\ field d "price" <> PNone /\
   field d "description" <> PNone /\ field d "cover" <> PNone) /\
  (lookup "title" d = None ->
   ProductSetters.set_name p (name p)
   = inl (ValueError "Invalid value for `name`, must not be `None`")).
Proof.
  intros H.
  destruct (mapped_text_fields_are_strings_aux _ _ H) as (Ta & Tc).
  destruct (common_fields_of _ _ H)
    as (d' & cs & E & _ & N & _ & _ & De & Co & Pr & _).
  injection E as <-.
  assert (A : ProductSetters.set_artist p (artist p) = inr p)
    by (apply set_artist_own, str_not_none, Ta).
  assert (C : ProductSetters.set_colaborators p (colaborators p) = inr p)
    by (apply set_colaborators_own, str_list_not_none, Tc).
  split; [exact A|]. split; [exact C|]. split.
  - unfold ProductSetters.accepted.
    rewrite set_name_own, set_price_own, set_description_own, set_cover_own.
    rewrite N, Pr, De, Co. tauto.
  - intros L. unfold ProductSetters.set_name. rewrite N. unfold field.
    rewrite L. reflexivity.
Qed.

Lemma mapped_product_accepted_iff_witness :
  exists p,
    map_song (test_song 1 "Test Song 1" "1.99" 180) = Ok p /\
    ProductSetters.accepted p.
Proof.
  eexists. split; [reflexivity|].
  apply (mapped_product_accepted_iff
           [("songId", PInt 1); ("title", PStr "Test Song 1");
            ("artistId", PInt 1); ("albumId", PInt 1);
            ("price", PFloat "1.99"); ("description", PStr "Test");
            ("releaseDate", PStr "2024-01-01"); ("duration", PInt 180);
            ("cover", PStr "base64..."); ("genres", PList [PInt 1]);
            ("collaborators", PList [])] _ (or_introl eq_refl)).
  repeat split; discriminate.
Defined.

(** X19.  Every [Error] the endpoint returns has the code ["500"] and
    passes both validating setters of its class: neither its code nor its
    message is ever null. *)
Theorem returned_error_is_accepted
        (base : string) (D : Type) (to_dict : Product -> D)
        (up : list string -> string -> res pyval) (w : world) (err : Error) :
  fst (show_storefront_products base D to_dict up w) = Ok (Failure err) ->
  code err = PStr "500" /\ is_str (message err) = true /\
  ErrorSetters.set_code err (code err) = inr err /\
  ErrorSetters.set_message err (message err) = inr err.
Proof.
  destruct (fetch_returns base up w) as ([[c a] m] & w1 & F & _).
  rewrite (show_spec _ _ _ _ _ _ _ F).
  destruct (build_productos c a m) as [e|ps]; cbn [fst]; [|discriminate].
  intros H. injection H as <-. repeat split.
Qed.

Lemma returned_error_is_accepted_witness :
  exists err,
    fst (show_storefront_products "http://tya" Product (fun p => p)
           garbled fresh) = Ok (Failure err) /\
    code err = PStr "500" /\
    ErrorSetters.set_message err (message err) = inr err.
Proof.
  eexists. split; [reflexivity|].
  destruct (returned_error_is_accepted
              "http://tya" Product (fun p => p) garbled fresh _ eq_refl)
    as (Hc & _ & _ & Hm).
  split; assumption.
Defined.

(** X20.  The quantity setter of a cart line keeps the quantity at least
    1: it raises exactly for an integer below 1, and otherwise stores the
    integer given, or 1 for [None], leaving the three identifiers alone. *)
Theorem set_unidades_keeps_at_least_one (c : Cart.CartBody) (u : option Z) :
  (Cart.set_unidades c u
   = inl (ValueError "La cantidad debe ser al menos 1")
   <-> exists z, u = Some z /\ (z < 1)%Z) /\
  (forall c', Cart.set_unidades c u = inr c' ->
              (1 <= Cart.unidades c')%Z /\
              (forall z, u = Some z -> Cart.unidades c' = z) /\
              (u = None -> Cart.unidades c' = 1%Z) /\
              Cart.song_id c' = Cart.song_id c /\
              Cart.album_id c' = Cart.album_id c /\
              Cart.merch_id c' = Cart.merch_id c).
Proof.
  unfold Cart.set_unidades. destruct u as [z|].
  - destruct (Z.ltb_spec z 1) as [Hlt|Hge]; split.
    + split; [eauto|reflexivity].
    + discriminate.
    + split; [discriminate|]. intros (z' & E & Hz). injection E as <-. lia.
    + intros c' H. injection H as <-. cbn.
      destruct (Z.eqb_spec z 0); [lia|].
      split; [exact Hge|]. split; [intros z' E; now injection E|].
      split; [discriminate|]. auto.
  - split.
    + split; [discriminate|]. intros (z & E & _). discriminate E.
    + intros c' H. injection H as <-. cbn.
      split; [lia|]. split; [discriminate|]. auto.
Qed.

(** X21.  The constructor of a cart line turns a missing quantity and the
    quantity 0 into 1 and keeps every other integer, so unlike the setter
    it accepts a negative quantity: the stored quantity is at least 1
    exactly when the argument is not negative. *)
Theorem init_does_not_check_unidades
        (song album merch u : option Z) :
  let c := Cart.init song album merch u in
  (u = None \/ u = Some 0%Z -> Cart.unidades c = 1%Z) /\
  (forall z, u = Some z -> z <> 0%Z -> Cart.unidades c = z) /\
  ((1 <= Cart.unidades c)%Z <-> forall z, u = Some z -> (0 <= z)%Z) /\
  (forall z c0, u = Some z -> (z < 0)%Z ->
                Cart.unidades c = z /\
                Cart.set_unidades c0 u
                = inl (ValueError "La cantidad debe ser al menos 1")).
Proof.
  cbn. unfold Cart.set_unidades. destruct u as [z|]; cbn.
  - destruct (Z.eqb_spec z 0) as [->|Hz]; repeat split; intros;
      try match goal with
          | H : Some _ = Some _ |- _ => injection H as <-
          end;
      try destruct (Z.ltb_spec z 1);
      try lia; try reflexivity; try discriminate;
      try (match goal with H : _ \/ _ |- _ => destruct H as [H|H] end;
           try discriminate; injection H as ->; lia).
    all: match goal with
         | H : forall z0, Some ?z = Some z0 -> _ |- _ =>
             specialize (H z eq_refl); lia
         end.
  - repeat split; intros; try lia; try discriminate.
Qed.
